(** * GF(2) arrays and their bit-packed representation

    A shallow embedding of [galois/_fields/_gf2.py]: the scalar arithmetic of
    GF(2), the ufunc dispatchers of the bit-packed class [GF2BP], the packed
    matrix product and the two [astype] casts, together with the fragment of
    NumPy these functions call ([packbits], [unpackbits], broadcasting of
    binary ufuncs, reductions along the last axis). *)

From Stdlib Require Import String ZArith List Lia Bool Arith.
Import ListNotations.

Local Open Scope Z_scope.

(** ** Python exceptions and fallible computations *)

(** The exception classes the module raises itself or receives from NumPy.
    [ZeroDivisionError], [ArithmeticError] and [NotImplementedError] carry the
    message given at the [raise] site. *)
Inductive exn : Type :=
| ZeroDivisionError (msg : string)
| ArithmeticError (msg : string)
| NotImplementedError (msg : string)
| AssertionError
| AttributeError
| IndexError
| ValueError
| TypeError
| ValidationError.

Inductive result (A : Type) : Type :=
| Ok (a : A)
| Raise (e : exn).
Arguments Ok {A} a.
Arguments Raise {A} e.

Definition bind {A B : Type} (c : result A) (k : A -> result B) : result B :=
  match c with
  | Ok a => k a
  | Raise e => Raise e
  end.

Declare Scope py_scope.
Delimit Scope py_scope with py.
Notation "x <- c ;; k" := (bind c (fun x => k))
  (at level 61, c at next level, right associativity) : py_scope.
Open Scope py_scope.

(** [assert cond] *)
Definition assert (cond : bool) : result unit :=
  if cond then Ok tt else Raise AssertionError.

(** Elementwise application of a fallible scalar rule: the first failing
    element aborts the whole operation. *)
Fixpoint mapM {A B : Type} (f : A -> result B) (l : list A) : result (list B) :=
  match l with
  | [] => Ok []
  | x :: l' => y <- f x ;; ys <- mapM f l' ;; Ok (y :: ys)
  end.

(** ** Scalar arithmetic of GF(2) *)

Definition msg_zero_inverse : string :=
  "Cannot compute the multiplicative inverse of 0 in a Galois field.".
Definition msg_log_zero : string :=
  "Cannot compute the discrete logarithm of 0 in a Galois field.".
Definition msg_generator : string :=
  "In GF(2), 1 is the only multiplicative generator.".

(** The error kinds of the specification, as the exceptions that realise
    them. *)
Definition DivisionByZero : exn := ZeroDivisionError msg_zero_inverse.
Definition UndefinedLogarithm : exn := ArithmeticError msg_log_zero.
Definition InvalidGenerator : exn := ArithmeticError msg_generator.

Module reciprocal.
Definition calculate (a : Z) : result Z :=
  if a =? 0 then Raise (ZeroDivisionError msg_zero_inverse) else Ok 1.
End reciprocal.

Module divide.
Definition calculate (a b : Z) : result Z :=
  if b =? 0 then Raise (ZeroDivisionError msg_zero_inverse)
  else Ok (Z.land a b).
End divide.

Module power.
Definition calculate (a b : Z) : result Z :=
  if (a =? 0) && (b <? 0) then Raise (ZeroDivisionError msg_zero_inverse)
  else if b =? 0 then Ok 1
  else Ok a.
End power.

Module log.
Definition calculate (a b : Z) : result Z :=
  if a =? 0 then Raise (ArithmeticError msg_log_zero)
  else if negb (b =? 1) then Raise (ArithmeticError msg_generator)
  else Ok 0.
End log.

(** ** The NumPy fragment

    An [ndarray] is its shape and its elements in row-major order, as NumPy
    stores a C-contiguous array.  Elements are integers; the packed storage
    holds bytes (values below 256). *)

Record ndarray : Type := mk_ndarray { shape : list nat; data : list Z }.

Definition size (s : list nat) : nat := fold_right Nat.mul 1%nat s.

Definition well_formed (a : ndarray) : Prop :=
  length (data a) = size (shape a).

Definition is_bit (x : Z) : Prop := x = 0 \/ x = 1.

Definition binary (a : ndarray) : Prop := Forall is_bit (data a).

Fixpoint zip_with {A B C : Type} (f : A -> B -> C) (l1 : list A) (l2 : list B)
  : list C :=
  match l1, l2 with
  | x :: l1', y :: l2' => f x y :: zip_with f l1' l2'
  | _, _ => []
  end.

Definition shape_eqb (s1 s2 : list nat) : bool :=
  if list_eq_dec Nat.eq_dec s1 s2 then true else false.

Module np.

(** [grid m n f] lays the values [f r c] out row by row. *)
Definition grid (m n : nat) (f : nat -> nat -> Z) : list Z :=
  flat_map (fun r => map (f r) (seq 0 n)) (seq 0 m).

(** A 0-d array is treated as a 1-d array of one element. *)
Definition atleast_1d (a : ndarray) : ndarray :=
  match shape a with
  | [] => mk_ndarray [1%nat] (data a)
  | _ => a
  end.

(** An axis is counted from the front or, when negative, from the back; an
    axis out of range raises NumPy's [AxisError], an [IndexError]. *)
Definition normalize_axis (axis : Z) (nd : nat) : result nat :=
  if (0 <=? axis) && (axis <? Z.of_nat nd) then Ok (Z.to_nat axis)
  else if (- Z.of_nat nd <=? axis) && (axis <? 0)
       then Ok (Z.to_nat (axis + Z.of_nat nd))
       else Raise IndexError.

(** The 1-d slice along an axis of length [n], at position [o] of the
    axes before it and position [i] of the [inner] elements after it. *)
Definition slice_along (n inner : nat) (d : list Z) (o i : nat) : list Z :=
  map (fun t => nth ((o * n + t) * inner + i) d 0) (seq 0 n).

(** Apply [f] to every 1-d slice along axis [ax]; each result has [n_out]
    elements. *)
Definition apply_along (ax n_out : nat) (f : list Z -> list Z) (a : ndarray)
  : ndarray :=
  let pre := firstn ax (shape a) in
  let n := nth ax (shape a) 0%nat in
  let post := skipn (S ax) (shape a) in
  mk_ndarray (pre ++ n_out :: post)
    (flat_map
       (fun o =>
          grid n_out (size post)
            (fun k i => nth k (f (slice_along n (size post) (data a) o i)) 0))
       (seq 0 (size pre))).

(** *** packbits: big-endian bit order, zero padding of the last byte *)

Definition nonzero (x : Z) : Z := if x =? 0 then 0 else 1.

Definition pack8 (g : list Z) : Z :=
  fold_left (fun build x => Z.lor (Z.shiftl build 1) (nonzero x))
    (firstn 8 (g ++ repeat 0 8)) 0.

Definition cdiv8 (n : nat) : nat := ((n + 7) / 8)%nat.

Definition packbits_1d (l : list Z) : list Z :=
  map (fun k => pack8 (skipn (8 * k) l)) (seq 0 (cdiv8 (length l))).

Definition packbits (a : ndarray) (axis : Z) : result ndarray :=
  let a := atleast_1d a in
  ax <- normalize_axis axis (length (shape a)) ;;
  Ok (apply_along ax (cdiv8 (nth ax (shape a) 0%nat)) packbits_1d a).

(** *** unpackbits *)

Definition unpack8 (z : Z) : list Z :=
  map (fun t => Z.land (Z.shiftr z (7 - Z.of_nat t)) 1) (seq 0 8).

Definition unpackbits_1d (n_out : nat) (bytes : list Z) : list Z :=
  firstn n_out (flat_map unpack8 bytes ++ repeat 0 (n_out - 8 * length bytes)).

(** [count = None] unpacks every bit, a non-negative count that many bits
    (zero padded), a negative count trims from the end. *)
Definition unpacked_length (n : nat) (count : option Z) : result nat :=
  match count with
  | None => Ok (8 * n)%nat
  | Some c =>
      if 0 <=? c then Ok (Z.to_nat c)
      else if 0 <=? Z.of_nat (8 * n) + c then Ok (Z.to_nat (Z.of_nat (8 * n) + c))
           else Raise ValueError
  end.

Definition unpackbits (a : ndarray) (axis : Z) (count : option Z)
  : result ndarray :=
  let a := atleast_1d a in
  ax <- normalize_axis axis (length (shape a)) ;;
  n_out <- unpacked_length (nth ax (shape a) 0%nat) count ;;
  Ok (apply_along ax n_out (unpackbits_1d n_out) a).

(** *** Binary ufuncs with broadcasting *)

Fixpoint broadcast_shapes_rev (r1 r2 : list nat) : option (list nat) :=
  match r1, r2 with
  | [], r => Some r
  | r, [] => Some r
  | n1 :: r1', n2 :: r2' =>
      match broadcast_shapes_rev r1' r2' with
      | None => None
      | Some r =>
          if (n1 =? n2)%nat then Some (n1 :: r)
          else if (n1 =? 1)%nat then Some (n2 :: r)
          else if (n2 =? 1)%nat then Some (n1 :: r)
          else None
      end
  end.

Definition broadcast_shapes (s1 s2 : list nat) : option (list nat) :=
  option_map (@rev nat) (broadcast_shapes_rev (rev s1) (rev s2)).

(** The flat index of the source element that a flat index of the target
    reads; shapes are given last axis first, a broadcast axis has stride 0. *)
Fixpoint source_index (rsrc rtgt : list nat) (idx : nat) : nat :=
  match rsrc, rtgt with
  | s :: rs, t :: rt =>
      ((if (s =? 1)%nat then 0 else idx mod t)
       + s * source_index rs rt (idx / t))%nat
  | _, _ => 0%nat
  end.

Definition broadcast_to (a : ndarray) (tgt : list nat) : list Z :=
  map (fun idx => nth (source_index (rev (shape a)) (rev tgt) idx) (data a) 0)
    (seq 0 (size tgt)).

Definition binary_ufunc (f : Z -> Z -> Z) (a b : ndarray) : result ndarray :=
  match broadcast_shapes (shape a) (shape b) with
  | None => Raise ValueError
  | Some s =>
      Ok (mk_ndarray s (zip_with f (broadcast_to a s) (broadcast_to b s)))
  end.

(** A scalar rule that may fail, vectorised. *)
Definition binary_ufunc_calculate (f : Z -> Z -> result Z) (a b : ndarray)
  : result ndarray :=
  match broadcast_shapes (shape a) (shape b) with
  | None => Raise ValueError
  | Some s =>
      d <- mapM (fun p => f (fst p) (snd p))
             (combine (broadcast_to a s) (broadcast_to b s)) ;;
      Ok (mk_ndarray s d)
  end.

Definition unary_ufunc (f : Z -> Z) (a : ndarray) : ndarray :=
  mk_ndarray (shape a) (map f (data a)).

Definition unary_ufunc_calculate (f : Z -> result Z) (a : ndarray)
  : result ndarray :=
  d <- mapM f (data a) ;; Ok (mk_ndarray (shape a) d).

Definition bitwise_xor : Z -> Z -> Z := Z.lxor.
Definition bitwise_and : Z -> Z -> Z := Z.land.
Definition positive (x : Z) : Z := x.

(** The number of 1-bits of the absolute value. *)
Fixpoint popcount (p : BinNums.positive) : Z :=
  match p with
  | xH => 1
  | xO p' => popcount p'
  | xI p' => 1 + popcount p'
  end.

Definition bitwise_count (z : Z) : Z :=
  match z with
  | Z0 => 0
  | Zpos p => popcount p
  | Zneg p => popcount p
  end.

(** *** bitwise_xor.reduce along an axis *)

Definition xor_reduce (l : list Z) : Z := fold_left Z.lxor l 0.

Definition bitwise_xor_reduce (a : ndarray) (axis : Z) : result ndarray :=
  ax <- normalize_axis axis (length (shape a)) ;;
  let pre := firstn ax (shape a) in
  let n := nth ax (shape a) 0%nat in
  let post := skipn (S ax) (shape a) in
  Ok (mk_ndarray (pre ++ post)
        (grid (size pre) (size post)
           (fun o i => xor_reduce (slice_along n (size post) (data a) o i)))).

(** *** Indexing [a[:, i]] and assignment [a[:, i] = v] *)

Definition getitem_col (a : ndarray) (i : nat) : result ndarray :=
  match shape a with
  | n0 :: n1 :: rest =>
      if (i <? n1)%nat
      then Ok (mk_ndarray (n0 :: rest)
                 (grid n0 (size rest)
                    (fun k r => nth ((k * n1 + i) * size rest + r) (data a) 0)))
      else Raise IndexError
  | _ => Raise IndexError
  end.

Definition setitem_col (a : ndarray) (i : nat) (v : ndarray) : result ndarray :=
  match shape a with
  | n0 :: n1 :: rest =>
      if (i <? n1)%nat
      then match broadcast_shapes (shape v) (n0 :: rest) with
           | Some s =>
               if shape_eqb s (n0 :: rest)
               then
                 let vb := broadcast_to v (n0 :: rest) in
                 Ok (mk_ndarray (shape a)
                       (flat_map
                          (fun k =>
                             grid n1 (size rest)
                               (fun j r =>
                                  if (j =? i)%nat
                                  then nth (k * size rest + r) vb 0
                                  else nth ((k * n1 + j) * size rest + r)
                                         (data a) 0))
                          (seq 0 n0)))
               else Raise ValueError
           | None => Raise ValueError
           end
      else Raise IndexError
  | _ => Raise IndexError
  end.

Definition zeros (s : list nat) : ndarray :=
  mk_ndarray s (repeat 0 (size s)).

End np.

(** ** Python values

    The operands the dispatchers and constructors receive: an integer, a
    (nested) list, a plain [np.ndarray], or an instance of one of the two
    field-array classes.  The attribute [_unpacked_shape] is assigned
    dynamically in the source, so an instance may lack it ([None]). *)

Inductive field : Type := GF2_cls | GF2BP_cls.

Inductive dtype : Type :=
| uint8 | uint16 | uint32 | uint64 | int8 | int16 | int32 | int64.

(** What [astype] may be given as its target. *)
Inductive pytype : Type :=
| cls (f : field)
| np_dtype (d : dtype).

#[local] Set Warnings "-register-all".
Inductive pyvalue : Type :=
| PyInt (z : Z)
| PyList (l : list pyvalue)
| NdArray (a : ndarray)
| FieldArray (c : field) (a : ndarray) (_unpacked_shape : option (list nat)).

Definition field_eqb (f g : field) : bool :=
  match f, g with
  | GF2_cls, GF2_cls | GF2BP_cls, GF2BP_cls => true
  | _, _ => false
  end.

(** [dtype is C] for a field class [C]. *)
Definition is_cls (t : pytype) (f : field) : bool :=
  match t with
  | cls g => field_eqb g f
  | np_dtype _ => false
  end.

(** [isinstance(x, C)] for a field class [C]. *)
Definition isinstance (x : pyvalue) (f : field) : bool :=
  match x with
  | FieldArray c _ _ => field_eqb c f
  | _ => false
  end.

(** [isinstance(x, np.ndarray)]: the field arrays subclass [np.ndarray]. *)
Definition isinstance_ndarray (x : pyvalue) : bool :=
  match x with
  | NdArray _ | FieldArray _ _ _ => true
  | _ => false
  end.

(** [x.view(np.ndarray)] *)
Definition view_ndarray (x : pyvalue) : result ndarray :=
  match x with
  | NdArray a | FieldArray _ a _ => Ok a
  | _ => Raise AttributeError
  end.

(** [x._unpacked_shape] *)
Definition get_unpacked_shape (x : pyvalue) : result (list nat) :=
  match x with
  | FieldArray _ _ (Some s) => Ok s
  | _ => Raise AttributeError
  end.

(** [x._unpacked_shape = s]; integers, lists and plain arrays accept no new
    attribute. *)
Definition set_unpacked_shape (x : pyvalue) (s : list nat) : result pyvalue :=
  match x with
  | FieldArray c a _ => Ok (FieldArray c a (Some s))
  | _ => Raise AttributeError
  end.

(** [s[-1]] and [s[0]] on a tuple *)
Definition getitem_last (s : list nat) : result nat :=
  match s with
  | [] => Raise IndexError
  | _ => Ok (last s 0%nat)
  end.

Definition getitem_first (s : list nat) : result nat :=
  match s with
  | [] => Raise IndexError
  | n :: _ => Ok n
  end.

(** [np.array(x, ndmin=ndmin)] on an array: leading axes of length one are
    added until the array has [ndmin] axes. *)
Definition np_array (a : ndarray) (ndmin : nat) : ndarray :=
  mk_ndarray (repeat 1%nat (ndmin - length (shape a)) ++ shape a) (data a).

(** [np.array] on an integer, an array or a nested list of them; a ragged
    list is refused. *)
Fixpoint array_of (x : pyvalue) : result ndarray :=
  match x with
  | PyInt z => Ok (mk_ndarray [] [z])
  | NdArray a => Ok a
  | FieldArray _ a _ => Ok a
  | PyList l =>
      subs <- (fix go (l : list pyvalue) : result (list ndarray) :=
                 match l with
                 | [] => Ok []
                 | y :: l' => a <- array_of y ;; r <- go l' ;; Ok (a :: r)
                 end) l ;;
      match subs with
      | [] => Ok (mk_ndarray [0%nat] [])
      | a0 :: _ =>
          if forallb (fun a => shape_eqb (shape a) (shape a0)) subs
          then Ok (mk_ndarray (length subs :: shape a0) (flat_map data subs))
          else Raise ValueError
      end
  end.

(** ** The base array framework

    [FieldArray], its validation primitive and the generic ufunc dispatchers
    live in modules of the package that this file imports. *)

Module Base.

(** Modelled from the spec: the validation primitive of the base
    framework ([_verify_array_like_types_and_values], not part of this
    module) verifies that every element lies in {0, ..., order-1}, here
    {0,1}, and raises a validation error otherwise; the values are returned
    as they are. *)
Definition _verify_array_like_types_and_values (a : ndarray) : result ndarray :=
  if forallb (fun x => (0 <=? x) && (x <? 2)) (data a) then Ok a
  else Raise ValidationError.

(** Modelled from the spec: the no-copy view of the base framework
    ([_view]) reinterprets existing numeric storage as an array of the
    field class; the new object has no [_unpacked_shape]. *)
Definition _view (c : field) (a : ndarray) : pyvalue := FieldArray c a None.

(** Modelled from the spec: the constructor of the unpacked class
    ([FieldArray.__new__], inherited by [GF2]) builds an array from an
    integer, an array or nested sequences of integers restricted to {0,1},
    through the validation primitive. *)
Definition __new__ (c : field) (x : pyvalue) : result pyvalue :=
  a <- array_of x ;;
  v <- _verify_array_like_types_and_values a ;;
  Ok (_view c v).

(** Modelled from the spec: [Zeros(shape)] of the base framework, the
    all-zero array of a logical shape. *)
Definition Zeros (c : field) (s : list nat) : pyvalue := _view c (np.zeros s).

(** Modelled from the spec: the base dispatcher of a binary operation
    (of [_lookup.py]) views its operands as plain arrays, applies the
    registered rule elementwise with broadcasting and views the result as an
    array of the field.  An operand of add, subtract, divide and of the unary
    operations is an array: a Python integer is refused with TypeError. *)
Definition view_input (x : pyvalue) : result ndarray :=
  match x with
  | NdArray a | FieldArray _ a _ => Ok a
  | PyInt _ | PyList _ => Raise TypeError
  end.

(** Modelled from the spec: the dispatched operations take mixed operands
    (packed-with-scalar); the base dispatcher of multiply also takes a Python
    integer, for scalar multiplication, and reduces it modulo the
    characteristic 2. *)
Definition view_input_or_int (x : pyvalue) : result ndarray :=
  match x with
  | PyInt z => Ok (mk_ndarray [] [z mod 2])
  | _ => view_input x
  end.

(** Modelled from the spec: the exponent of power is any integer, also a
    negative one; the base dispatcher of power takes it as it is. *)
Definition view_exponent (x : pyvalue) : result ndarray :=
  match x with
  | PyInt z => Ok (mk_ndarray [] [z])
  | _ => view_input x
  end.

Definition binary_call_with (view1 view2 : pyvalue -> result ndarray)
  (c : field) (rule : ndarray -> ndarray -> result ndarray)
  (inputs : list pyvalue) : result pyvalue :=
  match inputs with
  | [x; y] =>
      a <- view1 x ;; b <- view2 y ;;
      o <- rule a b ;;
      Ok (_view c o)
  | _ => Raise TypeError
  end.

Definition binary_call : field -> (ndarray -> ndarray -> result ndarray) ->
                         list pyvalue -> result pyvalue :=
  binary_call_with view_input view_input.

Definition unary_call (c : field) (rule : ndarray -> result ndarray)
  (inputs : list pyvalue) : result pyvalue :=
  match inputs with
  | [x] => a <- view_input x ;; o <- rule a ;; Ok (_view c o)
  | _ => Raise TypeError
  end.

(** The dispatchers constructed with [override=f] apply the NumPy ufunc
    [f]; those without apply the vectorised [calculate] of their class. *)
Definition override_ufunc (c : field) (f : Z -> Z -> Z) :=
  binary_call c (fun a b => np.binary_ufunc f a b).
Definition override_ufunc_or_int (c : field) (f : Z -> Z -> Z) :=
  binary_call_with view_input_or_int view_input_or_int c
    (fun a b => np.binary_ufunc f a b).
Definition override_unary_ufunc (c : field) (f : Z -> Z) :=
  unary_call c (fun a => Ok (np.unary_ufunc f a)).
Definition calculate_ufunc (c : field) (f : Z -> Z -> result Z) :=
  binary_call c (np.binary_ufunc_calculate f).
Definition calculate_power_ufunc (c : field) (f : Z -> Z -> result Z) :=
  binary_call_with view_input view_exponent c (np.binary_ufunc_calculate f).
Definition calculate_unary_ufunc (c : field) (f : Z -> result Z) :=
  unary_call c (np.unary_ufunc_calculate f).

(** [x.copy()] of NumPy: a new array of the same class, shape and
    elements; the dynamically assigned attribute stays with the original. *)
Definition copy (x : pyvalue) : result pyvalue :=
  match x with
  | FieldArray c a _ => Ok (FieldArray c a None)
  | NdArray a => Ok (NdArray a)
  | _ => Raise AttributeError
  end.

(** Modelled from the spec: [a & b] on packed arrays goes through the
    base framework, which is not part of this module; it is the bitwise AND
    of the two storages, computed per row with NumPy's broadcasting, and the
    result is viewed as an array of the field. *)
Definition and_ (c : field) (a b : pyvalue) : result pyvalue :=
  x <- view_input a ;; y <- view_input b ;;
  o <- np.binary_ufunc np.bitwise_and x y ;;
  Ok (_view c o).

End Base.

Module add_ufunc.
Definition __call__ (c : field) (override : Z -> Z -> Z) :=
  Base.override_ufunc c override.
End add_ufunc.

Module subtract_ufunc.
Definition __call__ (c : field) (override : Z -> Z -> Z) :=
  Base.override_ufunc c override.
End subtract_ufunc.

Module multiply_ufunc.
Definition __call__ (c : field) (override : Z -> Z -> Z) :=
  Base.override_ufunc_or_int c override.
End multiply_ufunc.

Module negative_ufunc.
Definition __call__ (c : field) (override : Z -> Z) :=
  Base.override_unary_ufunc c override.
End negative_ufunc.

(** ** The dispatchers of this module

    A dispatcher's [__call__] receives the ufunc, the method name, the
    operands, the keyword arguments and meta data.  The embedding keeps the
    class the dispatcher was created for and the operands, and follows the
    method [__call__], the elementwise application. *)

Module sqrt.
Definition implementation (a : pyvalue) : result pyvalue := Base.copy a.

Definition __call__ (c : field) (inputs : list pyvalue) : result pyvalue :=
  match inputs with
  | [a] => implementation a
  | _ => Raise TypeError
  end.
End sqrt.

(** The operation table a field class registers. *)
Record UFuncMixin : Type := {
  _add : list pyvalue -> result pyvalue;
  _negative : list pyvalue -> result pyvalue;
  _subtract : list pyvalue -> result pyvalue;
  _multiply : list pyvalue -> result pyvalue;
  _reciprocal : list pyvalue -> result pyvalue;
  _divide : list pyvalue -> result pyvalue;
  _power : list pyvalue -> result pyvalue;
  _log : list pyvalue -> result pyvalue;
  _sqrt : list pyvalue -> result pyvalue
}.

Definition UFuncMixin_2_1 (c : field) : UFuncMixin := {|
  _add := add_ufunc.__call__ c np.bitwise_xor;
  _negative := negative_ufunc.__call__ c np.positive;
  _subtract := subtract_ufunc.__call__ c np.bitwise_xor;
  _multiply := multiply_ufunc.__call__ c np.bitwise_and;
  _reciprocal := Base.calculate_unary_ufunc c reciprocal.calculate;
  _divide := Base.calculate_ufunc c divide.calculate;
  _power := Base.calculate_power_ufunc c power.calculate;
  _log := Base.calculate_ufunc c log.calculate;
  _sqrt := sqrt.__call__ c
|}.

(** [inputs[0]] *)
Definition first_input (inputs : list pyvalue) : result pyvalue :=
  match inputs with
  | x :: _ => Ok x
  | [] => Raise IndexError
  end.

Module add_ufunc_bitpacked.
Definition __call__ (c : field) (override : Z -> Z -> Z)
  (inputs : list pyvalue) : result pyvalue :=
  output <- add_ufunc.__call__ c override inputs ;;
  x <- first_input inputs ;;
  s <- get_unpacked_shape x ;;
  set_unpacked_shape output s.
End add_ufunc_bitpacked.

Module subtract_ufunc_bitpacked.
Definition __call__ (c : field) (override : Z -> Z -> Z)
  (inputs : list pyvalue) : result pyvalue :=
  output <- subtract_ufunc.__call__ c override inputs ;;
  x <- first_input inputs ;;
  s <- get_unpacked_shape x ;;
  set_unpacked_shape output s.
End subtract_ufunc_bitpacked.

Module multiply_ufunc_bitpacked.
Definition __call__ (c : field) (override : Z -> Z -> Z)
  (inputs : list pyvalue) : result pyvalue :=
  output <- multiply_ufunc.__call__ c override inputs ;;
  x <- first_input inputs ;;
  s <- get_unpacked_shape x ;;
  set_unpacked_shape output s.
End multiply_ufunc_bitpacked.

Module divide_ufunc_bitpacked.
(** [super().__call__] is the dispatcher that [divide] inherits from the
    base framework, which is not part of this module.  As every base
    dispatcher it views the operands as arrays, applies a rule to the storage
    and views the result as the field; what that rule computes on the bytes
    of packed storage is not determined by this module, so the rule is the
    argument [parent_rule]. *)
Definition __call__ (c : field)
  (parent_rule : ndarray -> ndarray -> result ndarray)
  (inputs : list pyvalue) : result pyvalue :=
  output <- Base.binary_call c parent_rule inputs ;;
  x <- first_input inputs ;;
  s <- get_unpacked_shape x ;;
  set_unpacked_shape output s.
End divide_ufunc_bitpacked.

Module matmul_ufunc_bitpacked.

(** The loop body of the matrix case:
    [output[:, i] = np.bitwise_xor.reduce(np.bitwise_count((a & b[:, i]).view(np.ndarray)), axis=-1) % 2].
    The values assigned are 0 or 1, so the element check of the assignment
    to the [GF2] array [output] passes; its storage is updated. *)
Definition column_step (c : field) (a : pyvalue) (b : ndarray)
  (output : ndarray) (i : nat) : result ndarray :=
  col <- np.getitem_col b i ;;
  ab <- Base.and_ c a (Base._view c col) ;;
  abv <- view_ndarray ab ;;
  red <- np.bitwise_xor_reduce (np.unary_ufunc np.bitwise_count abv) (-1) ;;
  np.setitem_col output i (np.unary_ufunc (fun z => z mod 2) red).

Fixpoint for_range (step : ndarray -> nat -> result ndarray)
  (output : ndarray) (indices : list nat) : result ndarray :=
  match indices with
  | [] => Ok output
  | i :: rest => o <- step output i ;; for_range step o rest
  end.

Definition __call__ (c : field) (inputs : list pyvalue) : result pyvalue :=
  match inputs with
  | [a; b] =>
      _ <- assert (isinstance a GF2BP_cls && isinstance b GF2BP_cls) ;;
      (* unpack the second operand and repack it along axis 0 *)
      unpacked_shape <- get_unpacked_shape b ;;
      bv <- view_ndarray b ;;
      count <- getitem_last unpacked_shape ;;
      bu <- np.unpackbits bv (-1) (Some (Z.of_nat count)) ;;
      b <- np.packbits bu 0 ;;
      av <- view_ndarray a ;;
      (* the inner dimensions are compared on the storage shapes *)
      a_last <- getitem_last (shape av) ;;
      b_first <- getitem_first (shape b) ;;
      _ <- assert (a_last =? b_first)%nat ;;
      a_first <- getitem_first (shape av) ;;
      final_shape <- (if (length (shape b) =? 1)%nat then Ok [a_first]
                      else b_last <- getitem_last (shape b) ;;
                           Ok [a_first; b_last]) ;;
      output <-
        (if (length (shape b) =? 1)%nat
         then
           ab <- Base.and_ c a (Base._view c b) ;;
           abv <- view_ndarray ab ;;
           bits <- np.unpackbits abv (-1) None ;;
           np.bitwise_xor_reduce bits (-1)
         else
           zeros <- view_ndarray (Base.Zeros GF2_cls final_shape) ;;
           b_last <- getitem_last (shape b) ;;
           for_range (column_step c a b) zeros (seq 0 b_last)) ;;
      packed <- np.packbits output (-1) ;;
      set_unpacked_shape (Base._view c packed) final_shape
  | _ => Raise ValueError
  end.

End matmul_ufunc_bitpacked.

(** [not_implemented] accepts any arguments and returns the constant
    [NotImplemented]; nothing in the module calls it. *)
Inductive NotImplementedType : Type := NotImplemented.
Definition not_implemented (args : list pyvalue) : NotImplementedType :=
  NotImplemented.

(** The table of the packed class; [parent_divide] is the storage rule of
    the inherited divide dispatcher. *)
Definition UFuncMixin_2_1_BitPacked (c : field)
  (parent_divide : ndarray -> ndarray -> result ndarray) : UFuncMixin := {|
  _add := add_ufunc_bitpacked.__call__ c np.bitwise_xor;
  _negative := negative_ufunc.__call__ c np.positive;
  _subtract := subtract_ufunc_bitpacked.__call__ c np.bitwise_xor;
  _multiply := multiply_ufunc_bitpacked.__call__ c np.bitwise_and;
  _reciprocal := Base.calculate_unary_ufunc c reciprocal.calculate;
  _divide := divide_ufunc_bitpacked.__call__ c parent_divide;
  _power := Base.calculate_power_ufunc c power.calculate;
  _log := Base.calculate_ufunc c log.calculate;
  _sqrt := sqrt.__call__ c
|}.

(** The scalar rule of [divide] applied element by element, as the unpacked
    class divides.  What is proved of the packed table holds for every
    parent rule of division; the examples of the packed table, none of which
    divides, are written with this one. *)
Definition vectorised_divide : ndarray -> ndarray -> result ndarray :=
  np.binary_ufunc_calculate divide.calculate.

(** [_assign_ufuncs] installs the packed matrix product. *)
Definition _matmul (c : field) : list pyvalue -> result pyvalue :=
  matmul_ufunc_bitpacked.__call__ c.

(** ** The two array classes *)

Definition msg_limited : string :=
  "GF2BP is a custom bit-packed GF2 class with limited functionality. If you were using an alternate constructor (e.g. Random), then use the GF2 class and convert it to the bit-packed version by using `.astype(GF2BP)`.".

Module GF2BP.

(** The constructor; [dtype], [copy] and [order] do not change the values
    stored and are left out. *)
Definition __new__ (x : pyvalue) (ndmin : nat) : result pyvalue :=
  if isinstance_ndarray x then
    xa <- view_ndarray x ;;
    x <- Base._verify_array_like_types_and_values xa ;;
    packed <- np.packbits (np_array x ndmin) (-1) ;;
    set_unpacked_shape (Base._view GF2BP_cls packed) (shape x)
  else Raise (NotImplementedError msg_limited).

Section Astype.
(** [super().astype], the cast of the parent class. *)
Variable super_astype : pyvalue -> pytype -> result pyvalue.

Definition astype (self : pyvalue) (dtype : pytype) : result pyvalue :=
  if is_cls dtype GF2_cls then
    bytes <- view_ndarray self ;;
    s <- get_unpacked_shape self ;;
    count <- getitem_last s ;;
    bits <- np.unpackbits bytes (-1) (Some (Z.of_nat count)) ;;
    Base.__new__ GF2_cls (NdArray bits)
  else super_astype self dtype.
End Astype.

End GF2BP.

Module GF2.

Section Astype.
Variable super_astype : pyvalue -> pytype -> result pyvalue.

Definition astype (self : pyvalue) (dtype : pytype) : result pyvalue :=
  if is_cls dtype GF2BP_cls then GF2BP.__new__ self 0
  else super_astype self dtype.
End Astype.

End GF2.

(** [np.ndarray.astype] for an integer target: the elements are converted to
    the target type, wrapping around; class and shape stay. *)
Definition dtype_bits (d : dtype) : Z :=
  match d with
  | uint8 | int8 => 8
  | uint16 | int16 => 16
  | uint32 | int32 => 32
  | uint64 | int64 => 64
  end.

Definition dtype_signed (d : dtype) : bool :=
  match d with
  | int8 | int16 | int32 | int64 => true
  | _ => false
  end.

Definition cast (d : dtype) (z : Z) : Z :=
  let m := 2 ^ dtype_bits d in
  if dtype_signed d then (z + m / 2) mod m - m / 2 else z mod m.

Definition ndarray_astype (self : pyvalue) (t : pytype) : result pyvalue :=
  match t, self with
  | np_dtype d, FieldArray c a s => Ok (FieldArray c (np.unary_ufunc (cast d) a) None)
  | np_dtype d, NdArray a => Ok (NdArray (np.unary_ufunc (cast d) a))
  | _, _ => Raise TypeError
  end.

(** ** Reference semantics: the integer matrix product modulo 2 *)

Definition dot (u v : list Z) : Z := fold_right Z.add 0 (zip_with Z.mul u v).

(** Entry [(i, k)] of a matrix with [n] columns stored row by row. *)
Definition entry (n : nat) (d : list Z) (i k : nat) : Z := nth (i * n + k) d 0.

Definition matrix_row (n : nat) (d : list Z) (i : nat) : list Z :=
  map (entry n d i) (seq 0 n).

Definition matrix_col (m n : nat) (d : list Z) (j : nat) : list Z :=
  map (fun k => entry n d k j) (seq 0 m).

(** [A @ v mod 2] for [A] of shape [[m; n]] and [v] of shape [[n]]. *)
Definition matvec_mod2 (m n : nat) (A v : list Z) : ndarray :=
  mk_ndarray [m] (map (fun i => dot (matrix_row n A i) v mod 2) (seq 0 m)).

(** [A @ B mod 2] for [A] of shape [[m; n]] and [B] of shape [[n; p]]. *)
Definition matmul_mod2 (m n p : nat) (A B : list Z) : ndarray :=
  mk_ndarray [m; p]
    (np.grid m p (fun i j => dot (matrix_row n A i) (matrix_col n p B j) mod 2)).

Definition sum (l : list Z) : Z := fold_right Z.add 0 l.

(** The packed storage of an array of shape [pre ++ [n]]. *)
Definition packed_last (pre : list nat) (n : nat) (d : list Z) : ndarray :=
  mk_ndarray (pre ++ [np.cdiv8 n])
    (flat_map (fun o => np.packbits_1d (firstn n (skipn (o * n) d)))
       (seq 0 (size pre))).

(** Literal inputs of the specification's examples. *)
Definition ex_A : ndarray := mk_ndarray [2; 3]%nat [1; 0; 1; 0; 1; 1].
Definition ex_v : ndarray := mk_ndarray [3]%nat [1; 1; 0].
Definition ex_B : ndarray := mk_ndarray [3; 2]%nat [1; 1; 0; 1; 1; 0].
Definition ex_v4 : ndarray := mk_ndarray [4]%nat [1; 1; 0; 1].
Definition ex_x : ndarray := mk_ndarray [4]%nat [1; 0; 1; 1].

(** * Theorems *)

(** ** Lists laid out in blocks *)

Section Blocks.
Context {A : Type}.

Lemma flat_map_length_const (B : Type) (g : B -> list A) (n : nat) (l : list B) :
  (forall x, In x l -> length (g x) = n) ->
  length (flat_map g l) = (length l * n)%nat.
Proof.
  induction l as [| x l IH]; intros H; cbn [flat_map length]; [reflexivity |].
  rewrite length_app, IH, H; [lia | now left | intros; apply H; now right].
Qed.

Lemma flat_map_nth_const (B : Type) (g : B -> list A) (n : nat) (l : list B)
  (r c : nat) (d : A) (dx : B) :
  (forall x, In x l -> length (g x) = n) ->
  (r < length l)%nat -> (c < n)%nat ->
  nth (r * n + c) (flat_map g l) d = nth c (g (nth r l dx)) d.
Proof.
  revert r. induction l as [| x l IH]; intros r H Hr Hc; cbn [length] in Hr; [lia |].
  cbn [flat_map]. destruct r as [| r].
  - cbn [Nat.mul Nat.add nth]. rewrite app_nth1; [reflexivity |].
    rewrite H; [assumption | now left].
  - rewrite app_nth2; rewrite H by (now left); [| lia].
    replace (S r * n + c - n)%nat with (r * n + c)%nat by lia.
    cbn [nth]. apply IH; [intros; apply H; now right | lia | assumption].
Qed.

Lemma flat_map_ext_in (B : Type) (f g : B -> list A) (l : list B) :
  (forall x, In x l -> f x = g x) -> flat_map f l = flat_map g l.
Proof.
  intros H. rewrite !flat_map_concat_map. f_equal. now apply map_ext_in.
Qed.

Lemma map_nth_seq (l : list A) (d : A) :
  map (fun k => nth k l d) (seq 0 (length l)) = l.
Proof.
  apply nth_ext with (d := d) (d' := d).
  - now rewrite length_map, length_seq.
  - intros k Hk. rewrite length_map, length_seq in Hk.
    rewrite nth_indep with (d' := nth 0 l d) by (now rewrite length_map, length_seq).
    rewrite map_nth with (f := fun k => nth k l d) (d := 0%nat).
    now rewrite seq_nth.
Qed.

Lemma nth_map_seq (f : nat -> A) (n k : nat) (d : A) :
  (k < n)%nat -> nth k (map f (seq 0 n)) d = f k.
Proof.
  intros Hk.
  rewrite nth_indep with (d' := f 0%nat) by (now rewrite length_map, length_seq).
  rewrite map_nth with (f := f) (d := 0%nat). now rewrite seq_nth.
Qed.

Lemma nth_firstn_skipn (l : list A) (off n k : nat) (d : A) :
  (k < n)%nat -> nth k (firstn n (skipn off l)) d = nth (off + k) l d.
Proof.
  intros Hk. rewrite nth_firstn.
  destruct (Nat.ltb_spec k n); [| lia]. apply nth_skipn.
Qed.

End Blocks.

Lemma grid_length (m n : nat) (f : nat -> nat -> Z) :
  length (np.grid m n f) = (m * n)%nat.
Proof.
  unfold np.grid. rewrite flat_map_length_const with (n := n).
  - now rewrite length_seq.
  - intros. now rewrite length_map, length_seq.
Qed.

Lemma grid_nth (m n : nat) (f : nat -> nat -> Z) (r c : nat) (d : Z) :
  (r < m)%nat -> (c < n)%nat -> nth (r * n + c) (np.grid m n f) d = f r c.
Proof.
  intros Hr Hc. unfold np.grid.
  rewrite flat_map_nth_const with (n := n) (dx := 0%nat).
  - rewrite seq_nth by assumption. now apply nth_map_seq.
  - intros. now rewrite length_map, length_seq.
  - now rewrite length_seq.
  - assumption.
Qed.

Lemma grid_ext (m n : nat) (f g : nat -> nat -> Z) :
  (forall r c, (r < m)%nat -> (c < n)%nat -> f r c = g r c) ->
  np.grid m n f = np.grid m n g.
Proof.
  intros H. unfold np.grid. rewrite !flat_map_concat_map. f_equal.
  apply map_ext_in. intros r Hr.
  apply in_seq in Hr. apply map_ext_in. intros c Hc. apply in_seq in Hc.
  apply H; lia.
Qed.

Lemma grid_Forall (P : Z -> Prop) (m n : nat) (f : nat -> nat -> Z) :
  (forall r c, (r < m)%nat -> (c < n)%nat -> P (f r c)) ->
  Forall P (np.grid m n f).
Proof.
  intros H. unfold np.grid. apply Forall_flat_map, Forall_forall.
  intros r Hr. apply in_seq in Hr. apply Forall_map, Forall_forall.
  intros c Hc. apply in_seq in Hc. apply H; lia.
Qed.

(** A buffer of [m * n] elements is the grid of its entries. *)
Lemma grid_of_list (m n : nat) (l : list Z) :
  length l = (m * n)%nat ->
  np.grid m n (fun r c => nth (r * n + c) l 0) = l.
Proof.
  revert l. induction m as [| m IH]; intros l Hl.
  - destruct l; [reflexivity | discriminate].
  - unfold np.grid. rewrite seq_S, flat_map_app. cbn [flat_map Nat.add].
    rewrite app_nil_r.
    etransitivity; [| apply (firstn_skipn (m * n) l)].
    f_equal.
    + fold (np.grid m n (fun r c => nth (r * n + c) l 0)).
      rewrite <- (IH (firstn (m * n) l)).
      * apply grid_ext. intros r c Hr Hc. rewrite nth_firstn.
        destruct (Nat.ltb_spec (r * n + c) (m * n)); [reflexivity | nia].
      * rewrite length_firstn. nia.
    + apply nth_ext with (d := 0) (d' := 0).
      * rewrite length_map, length_seq, length_skipn. nia.
      * intros k Hk. rewrite length_map, length_seq in Hk.
        rewrite nth_map_seq by assumption. now rewrite nth_skipn.
Qed.

(** ** Bytes and bits *)

Lemma is_bit_nonzero (x : Z) : is_bit x -> np.nonzero x = x.
Proof. intros [-> | ->]; reflexivity. Qed.

Lemma nonzero_is_bit (x : Z) : is_bit (np.nonzero x).
Proof. unfold np.nonzero, is_bit. destruct (x =? 0); auto. Qed.

Lemma map_nonzero_bits (l : list Z) : Forall is_bit l -> map np.nonzero l = l.
Proof.
  induction 1 as [| x l Hx _ IH]; cbn [map]; [reflexivity |].
  now rewrite is_bit_nonzero, IH.
Qed.

Lemma length_pad8 (g : list Z) : length (firstn 8 (g ++ repeat 0 8)) = 8%nat.
Proof. rewrite length_firstn, length_app, repeat_length. lia. Qed.

Ltac eight_elements l H :=
  do 8 (destruct l as [| ? l]; [discriminate H |]);
  destruct l; [| discriminate H]; clear H.

(** Unpacking a packed group of eight returns its bits, the first element in
    the most significant position. *)
Lemma unpack8_pack8 (g : list Z) :
  np.unpack8 (np.pack8 g) = map np.nonzero (firstn 8 (g ++ repeat 0 8)).
Proof.
  unfold np.pack8. pose proof (length_pad8 g) as H.
  set (l := firstn 8 (g ++ repeat 0 8)) in *. clearbody l.
  eight_elements l H.
  cbn [map fold_left]. unfold np.nonzero.
  repeat match goal with |- context [?x =? 0] => destruct (x =? 0) end;
    reflexivity.
Qed.

Lemma pack8_range (g : list Z) : 0 <= np.pack8 g < 256.
Proof.
  unfold np.pack8. pose proof (length_pad8 g) as H.
  set (l := firstn 8 (g ++ repeat 0 8)) in *. clearbody l.
  eight_elements l H.
  cbn [fold_left]. unfold np.nonzero.
  repeat match goal with |- context [?x =? 0] => destruct (x =? 0) end;
    cbv; split; congruence.
Qed.

Lemma length_unpack8 (z : Z) : length (np.unpack8 z) = 8%nat.
Proof. reflexivity. Qed.

Lemma land_one_is_bit (z : Z) : is_bit (Z.land z 1).
Proof.
  change 1 with (Z.ones 1). rewrite Z.land_ones by lia.
  change (2 ^ 1) with 2. unfold is_bit.
  pose proof (Z.mod_pos_bound z 2). lia.
Qed.

Lemma unpack8_bits (z : Z) : Forall is_bit (np.unpack8 z).
Proof.
  unfold np.unpack8. apply Forall_map, Forall_forall. intros t _.
  apply land_one_is_bit.
Qed.

Lemma land_shiftr_one (x y k : Z) :
  Z.land (Z.shiftr (Z.land x y) k) 1
  = Z.land (Z.land (Z.shiftr x k) 1) (Z.land (Z.shiftr y k) 1).
Proof.
  rewrite Z.shiftr_land.
  rewrite <- !Z.land_assoc. f_equal.
  rewrite (Z.land_comm 1). rewrite <- Z.land_assoc.
  now rewrite Z.land_diag.
Qed.

Lemma unpack8_land (x y : Z) :
  np.unpack8 (Z.land x y) = zip_with Z.land (np.unpack8 x) (np.unpack8 y).
Proof.
  unfold np.unpack8. cbn [seq map zip_with].
  now rewrite !land_shiftr_one.
Qed.

Lemma sum_app (l1 l2 : list Z) : sum (l1 ++ l2) = sum l1 + sum l2.
Proof. induction l1 as [| x l1 IH]; cbn; [reflexivity | unfold sum in *; cbn; lia]. Qed.

Lemma sum_repeat_zero (n : nat) : sum (repeat 0 n) = 0.
Proof. induction n as [| n IH]; cbn; [reflexivity | exact IH]. Qed.

Lemma bitwise_count_byte (z : Z) :
  0 <= z < 256 -> np.bitwise_count z = sum (np.unpack8 z).
Proof.
  intros Hz.
  assert (Hall : forallb (fun n => np.bitwise_count (Z.of_nat n)
                                   =? sum (np.unpack8 (Z.of_nat n)))
                   (seq 0 256) = true) by (vm_compute; reflexivity).
  rewrite forallb_forall in Hall.
  specialize (Hall (Z.to_nat z)).
  rewrite Z2Nat.id in Hall by lia.
  apply Z.eqb_eq, Hall, in_seq. lia.
Qed.

(** ** XOR reduction and parity *)

Lemma lxor_bits (a b : Z) : is_bit a -> is_bit b -> Z.lxor a b = (a + b) mod 2.
Proof. intros [-> | ->] [-> | ->]; reflexivity. Qed.

Lemma land_bits (a b : Z) : is_bit a -> is_bit b -> Z.land a b = a * b.
Proof. intros [-> | ->] [-> | ->]; reflexivity. Qed.

Lemma mod2_is_bit (z : Z) : is_bit (z mod 2).
Proof. unfold is_bit. pose proof (Z.mod_pos_bound z 2). lia. Qed.

Lemma lxor_mod2 (a b : Z) : Z.lxor a b mod 2 = (a + b) mod 2.
Proof.
  rewrite <- !Z.bit0_mod, Z.lxor_spec.
  rewrite Z.add_bit0. reflexivity.
Qed.

Lemma fold_lxor_mod2 (l : list Z) (acc : Z) :
  fold_left Z.lxor l acc mod 2 = (acc + sum l) mod 2.
Proof.
  revert acc. induction l as [| x l IH]; intros acc; cbn [fold_left sum fold_right].
  - now rewrite Z.add_0_r.
  - rewrite IH. fold (sum l).
    rewrite Zplus_mod, lxor_mod2, <- Zplus_mod. f_equal. lia.
Qed.

(** The parity of an XOR reduction is the parity of the sum. *)
Lemma xor_reduce_mod2 (l : list Z) : np.xor_reduce l mod 2 = sum l mod 2.
Proof. unfold np.xor_reduce. now rewrite fold_lxor_mod2. Qed.

Lemma fold_lxor_bits (l : list Z) (acc : Z) :
  is_bit acc -> Forall is_bit l -> is_bit (fold_left Z.lxor l acc).
Proof.
  intros Ha Hl. revert acc Ha.
  induction Hl as [| x l Hx _ IH]; intros acc Ha; cbn [fold_left]; [assumption |].
  apply IH. rewrite lxor_bits by assumption. apply mod2_is_bit.
Qed.

(** On bits the XOR reduction is the sum modulo 2. *)
Lemma xor_reduce_bits (l : list Z) :
  Forall is_bit l -> np.xor_reduce l = sum l mod 2.
Proof.
  intros Hl. rewrite <- xor_reduce_mod2.
  assert (H : is_bit (np.xor_reduce l))
    by (apply fold_lxor_bits; [now left | assumption]).
  destruct H as [-> | ->]; reflexivity.
Qed.

(** ** Packing and unpacking one slice *)

Lemma cdiv8_bounds (n : nat) : (n <= 8 * np.cdiv8 n < n + 8)%nat.
Proof.
  unfold np.cdiv8. pose proof (Nat.div_mod_eq (n + 7) 8).
  pose proof (Nat.mod_upper_bound (n + 7) 8). lia.
Qed.

Lemma cdiv8_mul8 (k : nat) : np.cdiv8 (8 * k) = k.
Proof. pose proof (cdiv8_bounds (8 * k)). lia. Qed.

Lemma length_packbits_1d (l : list Z) :
  length (np.packbits_1d l) = np.cdiv8 (length l).
Proof. unfold np.packbits_1d. now rewrite length_map, length_seq. Qed.

Lemma length_bits (bytes : list Z) :
  length (flat_map np.unpack8 bytes) = (8 * length bytes)%nat.
Proof.
  rewrite flat_map_length_const with (n := 8%nat); [lia |].
  intros. apply length_unpack8.
Qed.

Lemma packbits_1d_bytes (l : list Z) :
  Forall (fun z => 0 <= z < 256) (np.packbits_1d l).
Proof.
  unfold np.packbits_1d. apply Forall_map, Forall_forall.
  intros k _. apply pack8_range.
Qed.

Lemma nth_map_nonzero (l : list Z) (k : nat) :
  nth k (map np.nonzero l) 0 = np.nonzero (nth k l 0).
Proof. exact (map_nth np.nonzero l 0 k). Qed.

(** The bits of a packed slice are its elements, normalised to 0/1, followed
    by the zero padding of the last byte. *)
Lemma bits_packbits_1d (l : list Z) :
  flat_map np.unpack8 (np.packbits_1d l)
  = map np.nonzero l ++ repeat 0 (8 * np.cdiv8 (length l) - length l).
Proof.
  pose proof (cdiv8_bounds (length l)) as Hb.
  apply nth_ext with (d := 0) (d' := 0).
  - rewrite length_bits, length_packbits_1d, length_app, length_map, repeat_length.
    lia.
  - intros idx Hidx. rewrite length_bits, length_packbits_1d in Hidx.
    pose proof (Nat.div_mod_eq idx 8) as Hdm.
    pose proof (Nat.mod_upper_bound idx 8 ltac:(lia)) as Hm.
    set (k := (idx / 8)%nat) in *. set (t := (idx mod 8)%nat) in *.
    assert (Hk : (k < np.cdiv8 (length l))%nat) by lia.
    replace idx with (k * 8 + t)%nat at 1 by lia.
    rewrite flat_map_nth_const with (n := 8%nat) (dx := 0);
      [| intros; apply length_unpack8 | now rewrite length_packbits_1d | assumption].
    unfold np.packbits_1d at 1. rewrite nth_map_seq by assumption.
    rewrite unpack8_pack8.
    rewrite nth_map_nonzero.
    rewrite nth_firstn. destruct (Nat.ltb_spec t 8) as [_ | ?]; [| lia].
    destruct (Nat.lt_ge_cases idx (length l)) as [Hin | Hout].
    + rewrite app_nth1 by (rewrite length_skipn; lia).
      rewrite nth_skipn. rewrite app_nth1 by (now rewrite length_map).
      rewrite nth_map_nonzero.
      do 2 f_equal. lia.
    + rewrite app_nth2 by (rewrite length_skipn; lia).
      rewrite nth_repeat.
      rewrite app_nth2 by (rewrite length_map; lia).
      rewrite nth_repeat. reflexivity.
Qed.

Lemma Forall_skipn (P : Z -> Prop) (n : nat) (l : list Z) :
  Forall P l -> Forall P (skipn n l).
Proof.
  intros H. revert n. induction H as [| x l Hx Hl IH]; intros [| n]; cbn [skipn];
    auto.
Qed.

Lemma Forall_firstn (P : Z -> Prop) (n : nat) (l : list Z) :
  Forall P l -> Forall P (firstn n l).
Proof.
  intros H. revert n. induction H as [| x l Hx _ IH]; intros [| n]; cbn [firstn];
    constructor; auto.
Qed.

Lemma length_unpackbits_1d (n : nat) (bytes : list Z) :
  length (np.unpackbits_1d n bytes) = n.
Proof.
  unfold np.unpackbits_1d.
  rewrite length_firstn, length_app, length_bits, repeat_length. lia.
Qed.

Lemma unpackbits_1d_bits (n : nat) (bytes : list Z) :
  Forall is_bit (np.unpackbits_1d n bytes).
Proof.
  unfold np.unpackbits_1d. apply Forall_firstn, Forall_app. split.
  - apply Forall_flat_map, Forall_forall. intros z _. apply unpack8_bits.
  - apply Forall_forall. intros x Hx. apply repeat_spec in Hx. now left.
Qed.

(** Unpacking all the bits of [k] bytes. *)
Lemma unpackbits_1d_all (bytes : list Z) :
  np.unpackbits_1d (8 * length bytes) bytes = flat_map np.unpack8 bytes.
Proof.
  unfold np.unpackbits_1d. rewrite Nat.sub_diag. cbn [repeat].
  rewrite app_nil_r. apply firstn_all2. now rewrite length_bits.
Qed.

(** Round trip on one slice: truncating to the slice length drops exactly the
    padding. *)
Lemma unpackbits_packbits_1d (l : list Z) :
  np.unpackbits_1d (length l) (np.packbits_1d l) = map np.nonzero l.
Proof.
  unfold np.unpackbits_1d. rewrite bits_packbits_1d, <- app_assoc.
  rewrite firstn_app, length_map, Nat.sub_diag. cbn [firstn].
  rewrite app_nil_r. apply firstn_all2. now rewrite length_map.
Qed.

(** ** Operations along the last axis and along axis 0 *)

Lemma size_app (s1 s2 : list nat) : size (s1 ++ s2) = (size s1 * size s2)%nat.
Proof.
  unfold size. induction s1 as [| n s1 IH]; cbn [app fold_right].
  - lia.
  - rewrite IH. lia.
Qed.

Lemma size_last (pre : list nat) (n : nat) : size (pre ++ [n]) = (size pre * n)%nat.
Proof. rewrite size_app. cbn. lia. Qed.

Lemma grid_one (m : nat) (f : nat -> nat -> Z) :
  np.grid m 1 f = map (fun r => f r 0%nat) (seq 0 m).
Proof.
  unfold np.grid.
  change (fun r => map (f r) (seq 0 1)) with (fun r => [f r 0%nat]).
  induction (seq 0 m) as [| r l IH]; cbn [flat_map map app];
    [reflexivity | now rewrite IH].
Qed.

Lemma map_seq_grid (m n : nat) (f : nat -> Z) :
  map f (seq 0 (m * n)) = np.grid m n (fun r c => f (r * n + c)%nat).
Proof.
  apply nth_ext with (d := 0) (d' := 0).
  - now rewrite length_map, length_seq, grid_length.
  - intros idx Hidx. rewrite length_map, length_seq in Hidx.
    rewrite nth_map_seq by assumption.
    assert (Hn : (n <> 0)%nat) by nia.
    pose proof (Nat.div_mod_eq idx n) as Hdm.
    pose proof (Nat.mod_upper_bound idx n Hn) as Hm.
    assert (Hr : (idx / n < m)%nat) by (apply Nat.Div0.div_lt_upper_bound; lia).
    replace idx with ((idx / n) * n + idx mod n)%nat at 2 by lia.
    rewrite grid_nth by assumption. f_equal. lia.
Qed.

(** A run of a buffer, read entry by entry. *)
Lemma row_entries (n : nat) (d : list Z) (o : nat) :
  (o * n + n <= length d)%nat ->
  map (fun t => nth (o * n + t) d 0) (seq 0 n) = firstn n (skipn (o * n) d).
Proof.
  intros Hlen. apply nth_ext with (d := 0) (d' := 0).
  - rewrite length_map, length_seq, length_firstn, length_skipn. lia.
  - intros k Hk. rewrite length_map, length_seq in Hk.
    rewrite nth_map_seq by assumption. now rewrite nth_firstn_skipn.
Qed.

Lemma slice_along_last (n : nat) (d : list Z) (o : nat) :
  (o * n + n <= length d)%nat ->
  np.slice_along n 1 d o 0 = firstn n (skipn (o * n) d).
Proof.
  intros Hlen. unfold np.slice_along. rewrite <- row_entries by assumption.
  apply map_ext. intros t. f_equal. lia.
Qed.

Lemma rows_concat (m n : nat) (d : list Z) :
  length d = (m * n)%nat ->
  flat_map (fun o => firstn n (skipn (o * n) d)) (seq 0 m) = d.
Proof.
  intros Hd. etransitivity; [| apply (grid_of_list m n d Hd)]. unfold np.grid.
  rewrite !flat_map_concat_map. f_equal. apply map_ext_in.
  intros o Ho. apply in_seq in Ho. symmetry. apply row_entries. nia.
Qed.

Lemma last_axis_parts (pre : list nat) (n : nat) :
  firstn (length pre) (pre ++ [n]) = pre /\
  nth (length pre) (pre ++ [n]) 0%nat = n /\
  skipn (S (length pre)) (pre ++ [n]) = [].
Proof.
  repeat split.
  - rewrite firstn_app, Nat.sub_diag, firstn_all. cbn. apply app_nil_r.
  - rewrite app_nth2, Nat.sub_diag by lia. reflexivity.
  - apply skipn_all2. rewrite length_app. cbn. lia.
Qed.

Lemma normalize_axis_last (pre : list nat) (n : nat) :
  np.normalize_axis (-1) (length (pre ++ [n])) = Ok (length pre).
Proof.
  unfold np.normalize_axis. rewrite length_app. cbn [length].
  change (0 <=? -1) with false. cbn [andb].
  destruct (Z.leb_spec (- Z.of_nat (length pre + 1)) (-1)); [| lia].
  change (-1 <? 0) with true. cbn [andb]. f_equal. lia.
Qed.

Lemma atleast_1d_last (pre : list nat) (n : nat) (d : list Z) :
  np.atleast_1d (mk_ndarray (pre ++ [n]) d) = mk_ndarray (pre ++ [n]) d.
Proof. unfold np.atleast_1d. cbn [shape]. now destruct pre. Qed.

(** Applying a slice transformer along the last axis transforms the
    consecutive runs of the buffer. *)
Lemma apply_along_last (pre : list nat) (n n_out : nat) (f : list Z -> list Z)
  (d : list Z) :
  length d = (size pre * n)%nat ->
  (forall l, length l = n -> length (f l) = n_out) ->
  np.apply_along (length pre) n_out f (mk_ndarray (pre ++ [n]) d)
  = mk_ndarray (pre ++ [n_out])
      (flat_map (fun o => f (firstn n (skipn (o * n) d))) (seq 0 (size pre))).
Proof.
  intros Hd Hf. unfold np.apply_along. cbn [shape data].
  destruct (last_axis_parts pre n) as (-> & -> & ->).
  f_equal. rewrite !flat_map_concat_map. f_equal.
  apply map_ext_in. intros o Ho. apply in_seq in Ho.
  change (size []) with 1%nat. rewrite grid_one.
  rewrite slice_along_last by nia.
  rewrite <- (Hf (firstn n (skipn (o * n) d))); [apply map_nth_seq |].
  rewrite length_firstn, length_skipn. nia.
Qed.

Lemma block_of_flat_map (B : Type) (g : B -> list Z) (k : nat) (l : list B)
  (o : nat) (dx : B) :
  (forall x, In x l -> length (g x) = k) ->
  (o < length l)%nat ->
  firstn k (skipn (o * k) (flat_map g l)) = g (nth o l dx).
Proof.
  revert o. induction l as [| x l IH]; intros o H Ho; cbn [length] in Ho; [lia |].
  assert (Hx : length (g x) = k) by (apply H; now left).
  cbn [flat_map]. destruct o as [| o].
  - cbn [Nat.mul skipn nth]. rewrite firstn_app, Hx, Nat.sub_diag. cbn [firstn].
    rewrite app_nil_r. apply firstn_all2. lia.
  - rewrite skipn_app, Hx. rewrite skipn_all2 by lia. cbn [app nth].
    replace (S o * k - k)%nat with (o * k)%nat by lia.
    apply IH; [intros; apply H; now right | lia].
Qed.

Lemma length_row (n : nat) (d : list Z) (o : nat) :
  (o * n + n <= length d)%nat -> length (firstn n (skipn (o * n) d)) = n.
Proof. intros H. rewrite length_firstn, length_skipn. lia. Qed.

Lemma Forall_row (P : Z -> Prop) (n off : nat) (d : list Z) :
  Forall P d -> Forall P (firstn n (skipn off d)).
Proof. intros H. now apply Forall_firstn, Forall_skipn. Qed.

Lemma packbits_last (pre : list nat) (n : nat) (d : list Z) :
  length d = (size pre * n)%nat ->
  np.packbits (mk_ndarray (pre ++ [n]) d) (-1) = Ok (packed_last pre n d).
Proof.
  intros Hd. unfold np.packbits. rewrite atleast_1d_last. cbn [shape].
  rewrite normalize_axis_last. cbn [bind].
  destruct (last_axis_parts pre n) as (_ & -> & _).
  rewrite apply_along_last; [reflexivity | assumption |].
  intros l Hl. now rewrite length_packbits_1d, Hl.
Qed.

Lemma unpackbits_last (pre : list nat) (k c : nat) (d : list Z) :
  length d = (size pre * k)%nat ->
  np.unpackbits (mk_ndarray (pre ++ [k]) d) (-1) (Some (Z.of_nat c))
  = Ok (mk_ndarray (pre ++ [c])
          (flat_map (fun o => np.unpackbits_1d c (firstn k (skipn (o * k) d)))
             (seq 0 (size pre)))).
Proof.
  intros Hd. unfold np.unpackbits. rewrite atleast_1d_last. cbn [shape].
  rewrite normalize_axis_last. cbn [bind].
  destruct (last_axis_parts pre k) as (_ & -> & _).
  unfold np.unpacked_length.
  destruct (Z.leb_spec 0 (Z.of_nat c)); [| lia].
  rewrite Nat2Z.id. cbn [bind].
  rewrite apply_along_last; [reflexivity | assumption |].
  intros. apply length_unpackbits_1d.
Qed.

Lemma unpackbits_last_all (pre : list nat) (k : nat) (d : list Z) :
  length d = (size pre * k)%nat ->
  np.unpackbits (mk_ndarray (pre ++ [k]) d) (-1) None
  = Ok (mk_ndarray (pre ++ [8 * k])%nat
          (flat_map (fun o => flat_map np.unpack8 (firstn k (skipn (o * k) d)))
             (seq 0 (size pre)))).
Proof.
  intros Hd. unfold np.unpackbits. rewrite atleast_1d_last. cbn [shape].
  rewrite normalize_axis_last. cbn [bind].
  destruct (last_axis_parts pre k) as (_ & -> & _).
  cbn [np.unpacked_length bind].
  rewrite apply_along_last; [| assumption | intros; apply length_unpackbits_1d].
  do 2 f_equal. apply flat_map_ext_in. intros o Ho. apply in_seq in Ho.
  rewrite <- unpackbits_1d_all. now rewrite length_row by nia.
Qed.

(** Round trip on arrays: unpacking the packed storage along the last axis,
    truncated to the logical length, returns the elements that were packed. *)
Lemma unpackbits_packed_last (pre : list nat) (n : nat) (d : list Z) :
  length d = (size pre * n)%nat ->
  Forall is_bit d ->
  np.unpackbits (packed_last pre n d) (-1) (Some (Z.of_nat n))
  = Ok (mk_ndarray (pre ++ [n]) d).
Proof.
  intros Hd Hbits. unfold packed_last.
  assert (Hblock : forall o, In o (seq 0 (size pre)) ->
            length (np.packbits_1d (firstn n (skipn (o * n) d))) = np.cdiv8 n).
  { intros o Ho. apply in_seq in Ho.
    now rewrite length_packbits_1d, length_row by nia. }
  rewrite unpackbits_last.
  - f_equal. f_equal.
    etransitivity; [| apply (rows_concat (size pre) n d Hd)].
    apply flat_map_ext_in. intros o Ho.
    rewrite block_of_flat_map with (dx := 0%nat);
      [| assumption | rewrite length_seq; apply in_seq in Ho; lia].
    apply in_seq in Ho. rewrite seq_nth by lia. cbn [Nat.add].
    rewrite <- (length_row n d o) at 1 by nia.
    rewrite unpackbits_packbits_1d. apply map_nonzero_bits.
    now apply Forall_row.
  - rewrite flat_map_length_const with (n := np.cdiv8 n) by assumption.
    now rewrite length_seq.
Qed.


(** ** Validation, packing and unpacking of field arrays *)

Lemma is_bit_test (x : Z) : (0 <=? x) && (x <? 2) = true <-> is_bit x.
Proof. unfold is_bit. rewrite andb_true_iff, Z.leb_le, Z.ltb_lt. lia. Qed.

Lemma verify_binary (a : ndarray) :
  binary a -> Base._verify_array_like_types_and_values a = Ok a.
Proof.
  intros H. unfold Base._verify_array_like_types_and_values.
  replace (forallb _ (data a)) with true; [reflexivity |].
  symmetry. apply forallb_forall. intros x Hx. apply is_bit_test.
  unfold binary in H. rewrite Forall_forall in H. now apply H.
Qed.

Lemma verify_not_binary (a : ndarray) :
  ~ binary a -> Base._verify_array_like_types_and_values a = Raise ValidationError.
Proof.
  intros H. unfold Base._verify_array_like_types_and_values.
  destruct (forallb _ (data a)) eqn:E; [| reflexivity].
  exfalso. apply H. apply Forall_forall. intros x Hx. apply is_bit_test.
  rewrite forallb_forall in E. now apply E.
Qed.

Lemma getitem_last_app (pre : list nat) (n : nat) :
  getitem_last (pre ++ [n]) = Ok n.
Proof.
  unfold getitem_last. rewrite last_last. now destruct pre.
Qed.

Lemma shape_with_last_axis (s : list nat) :
  s <> [] -> exists pre n, s = pre ++ [n].
Proof.
  intros H. destruct (exists_last H) as (pre & n & ->). eauto.
Qed.

(** Packing an unpacked array of shape [pre ++ [n]]. *)
Lemma GF2BP_new_packs (x : pyvalue) (pre : list nat) (n : nat) (d : list Z) :
  view_ndarray x = Ok (mk_ndarray (pre ++ [n]) d) ->
  isinstance_ndarray x = true ->
  length d = (size pre * n)%nat ->
  Forall is_bit d ->
  GF2BP.__new__ x 0
  = Ok (FieldArray GF2BP_cls (packed_last pre n d) (Some (pre ++ [n]))).
Proof.
  intros Hv Hi Hd Hb. unfold GF2BP.__new__. rewrite Hi, Hv. cbn [bind].
  rewrite verify_binary by exact Hb. cbn [bind].
  unfold np_array. cbn [shape data Nat.sub repeat app].
  now rewrite packbits_last by assumption.
Qed.

(** Unpacking such a packed array. *)
Lemma GF2BP_astype_unpacks (sup : pyvalue -> pytype -> result pyvalue)
  (pre : list nat) (n : nat) (d : list Z) :
  length d = (size pre * n)%nat ->
  Forall is_bit d ->
  GF2BP.astype sup
    (FieldArray GF2BP_cls (packed_last pre n d) (Some (pre ++ [n]))) (cls GF2_cls)
  = Ok (FieldArray GF2_cls (mk_ndarray (pre ++ [n]) d) None).
Proof.
  intros Hd Hb. unfold GF2BP.astype. cbn [is_cls field_eqb view_ndarray bind
    get_unpacked_shape].
  rewrite getitem_last_app. cbn [bind].
  rewrite unpackbits_packed_last by assumption. cbn [bind].
  unfold Base.__new__. cbn [array_of bind].
  rewrite verify_binary by exact Hb. reflexivity.
Qed.

(** C2 (as amended): for every array y with at least one axis and all
    elements in {0,1}, packing y and then unpacking returns an array equal
    to y (the unpacking keeps exactly the logical number of elements of the
    last axis), and packing the unpacked array again gives the same packed
    array. *)
Theorem C2_pack_unpack_round_trip :
  forall (sup_unpacked sup_packed : pyvalue -> pytype -> result pyvalue)
         (y : ndarray) (attr : option (list nat)),
    well_formed y -> binary y -> shape y <> [] ->
    exists p,
      GF2.astype sup_unpacked (FieldArray GF2_cls y attr) (cls GF2BP_cls) = Ok p /\
      GF2BP.astype sup_packed p (cls GF2_cls) = Ok (FieldArray GF2_cls y None) /\
      GF2.astype sup_unpacked (FieldArray GF2_cls y None) (cls GF2BP_cls) = Ok p.
Proof.
  intros sup1 sup2 [s d] attr Hwf Hbin Hs.
  unfold well_formed, binary in *. cbn [shape data] in *.
  destruct (shape_with_last_axis s Hs) as (pre & n & ->).
  rewrite size_last in Hwf.
  exists (FieldArray GF2BP_cls (packed_last pre n d) (Some (pre ++ [n]))).
  unfold GF2.astype. cbn [is_cls field_eqb].
  split; [| split].
  - now apply GF2BP_new_packs.
  - now apply GF2BP_astype_unpacks.
  - now apply GF2BP_new_packs.
Qed.

Lemma C2_pack_unpack_round_trip_witness :
  exists p,
    GF2.astype ndarray_astype (FieldArray GF2_cls ex_x None) (cls GF2BP_cls) = Ok p /\
    GF2BP.astype ndarray_astype p (cls GF2_cls) = Ok (FieldArray GF2_cls ex_x None) /\
    GF2.astype ndarray_astype (FieldArray GF2_cls ex_x None) (cls GF2BP_cls) = Ok p.
Proof.
  apply (C2_pack_unpack_round_trip ndarray_astype ndarray_astype ex_x None).
  - reflexivity.
  - unfold binary, is_bit. cbn. repeat (constructor; [lia |]). constructor.
  - discriminate.
Defined.

(** C2, counterexample: a 0-d array with its element in {0,1} is packed, with
    the empty logical shape, and unpacking then fails at
    [self._unpacked_shape[-1]]. *)
Lemma C2_zero_dimensional_counterexample :
  well_formed (mk_ndarray [] [1]) /\
  binary (mk_ndarray [] [1]) /\
  GF2.astype ndarray_astype (FieldArray GF2_cls (mk_ndarray [] [1]) None)
    (cls GF2BP_cls)
  = Ok (FieldArray GF2BP_cls (mk_ndarray [1%nat] [128]) (Some [])) /\
  GF2BP.astype ndarray_astype
    (FieldArray GF2BP_cls (mk_ndarray [1%nat] [128]) (Some [])) (cls GF2_cls)
  = Raise IndexError.
Proof.
  split; [reflexivity |]. split; [| split; reflexivity].
  unfold binary, is_bit. cbn. constructor; [lia | constructor].
Qed.

(** ** Construction *)

(** C9 (as amended): the unpacked type is constructed from nested sequences
    of integers restricted to {0,1}; the packed type is constructed from an
    array only and refuses anything else, nested lists included, with
    NotImplementedError; in both, an element outside {0,1} makes the
    construction fail with a ValidationError and no value is clamped or
    coerced. *)
Theorem C9_construction :
  forall (x : pyvalue) (a : ndarray) (ndmin : nat),
    array_of x = Ok a ->
    (binary a -> Base.__new__ GF2_cls x = Ok (FieldArray GF2_cls a None)) /\
    (~ binary a -> Base.__new__ GF2_cls x = Raise ValidationError) /\
    (isinstance_ndarray x = false ->
     GF2BP.__new__ x ndmin = Raise (NotImplementedError msg_limited)) /\
    (isinstance_ndarray x = true -> ~ binary a ->
     GF2BP.__new__ x ndmin = Raise ValidationError) /\
    (isinstance_ndarray x = true -> binary a ->
     exists bytes,
       np.packbits (np_array a ndmin) (-1) = Ok bytes /\
       GF2BP.__new__ x ndmin = Ok (FieldArray GF2BP_cls bytes (Some (shape a)))).
Proof.
  intros x a ndmin Ha.
  assert (Hview : isinstance_ndarray x = true -> view_ndarray x = Ok a).
  { destruct x; cbn; intros; try discriminate; cbn in Ha; congruence. }
  repeat split.
  - intros Hb. unfold Base.__new__. rewrite Ha. cbn [bind].
    now rewrite verify_binary.
  - intros Hb. unfold Base.__new__. rewrite Ha. cbn [bind].
    now rewrite verify_not_binary.
  - intros Hi. unfold GF2BP.__new__. now rewrite Hi.
  - intros Hi Hb. unfold GF2BP.__new__. rewrite Hi, (Hview Hi). cbn [bind].
    now rewrite verify_not_binary.
  - intros Hi Hb. unfold GF2BP.__new__. rewrite Hi, (Hview Hi). cbn [bind].
    rewrite verify_binary by assumption. cbn [bind].
    destruct (np.packbits (np_array a ndmin) (-1)) as [bytes | e] eqn:E.
    + exists bytes. split; reflexivity.
    + exfalso. unfold np.packbits in E.
      destruct (shape_with_last_axis (shape (np.atleast_1d (np_array a ndmin))))
        as (pre & n & Hs).
      { unfold np.atleast_1d.
        destruct (shape (np_array a ndmin)) eqn:E2; cbn [shape];
          [| rewrite E2]; discriminate. }
      rewrite Hs, normalize_axis_last in E. discriminate E.
Qed.

Lemma C9_construction_witness :
  Base.__new__ GF2_cls (PyList [PyList [PyInt 1; PyInt 0]; PyList [PyInt 0; PyInt 1]])
  = Ok (FieldArray GF2_cls (mk_ndarray [2; 2]%nat [1; 0; 0; 1]) None) /\
  GF2BP.__new__ (PyList [PyList [PyInt 1; PyInt 0]; PyList [PyInt 0; PyInt 1]]) 0
  = Raise (NotImplementedError msg_limited).
Proof.
  pose proof (C9_construction
                (PyList [PyList [PyInt 1; PyInt 0]; PyList [PyInt 0; PyInt 1]])
                (mk_ndarray [2; 2]%nat [1; 0; 0; 1]) 0 eq_refl) as H.
  destruct H as (H1 & _ & H2 & _).
  split; [apply H1 | apply H2; reflexivity].
  unfold binary, is_bit. cbn. repeat (constructor; [lia |]). constructor.
Defined.

(** C9, counterexample: the packed constructor given the nested list
    [[1, 0, 1, 1]] raises NotImplementedError. *)
Lemma C9_packed_from_list_counterexample :
  GF2BP.__new__ (PyList [PyInt 1; PyInt 0; PyInt 1; PyInt 1]) 0
  = Raise (NotImplementedError msg_limited).
Proof. reflexivity. Qed.

(** ** Casting *)

Lemma nth_is_bit (l : list Z) (k : nat) : Forall is_bit l -> is_bit (nth k l 0).
Proof.
  intros H. destruct (nth_in_or_default k l 0) as [Hin | ->]; [| now left].
  rewrite Forall_forall in H. now apply H.
Qed.

Lemma normalize_axis_last_nonempty (s : list nat) :
  s <> [] -> np.normalize_axis (-1) (length s) = Ok (length s - 1)%nat.
Proof.
  intros Hs. destruct (shape_with_last_axis s Hs) as (pre & n & ->).
  rewrite normalize_axis_last, length_app. cbn [length]. f_equal. lia.
Qed.

Lemma atleast_1d_nonempty (a : ndarray) : shape (np.atleast_1d a) <> [].
Proof.
  unfold np.atleast_1d. destruct (shape a) eqn:E; cbn [shape];
    [| rewrite E]; discriminate.
Qed.

(** Unpacking along the last axis with a non-negative count always succeeds
    and yields bits. *)
Lemma unpackbits_total (a : ndarray) (c : nat) :
  exists bits, np.unpackbits a (-1) (Some (Z.of_nat c)) = Ok bits /\ binary bits.
Proof.
  unfold np.unpackbits.
  rewrite normalize_axis_last_nonempty by apply atleast_1d_nonempty.
  cbn [bind]. unfold np.unpacked_length.
  destruct (Z.leb_spec 0 (Z.of_nat c)); [| lia].
  rewrite Nat2Z.id. cbn [bind]. eexists. split; [reflexivity |].
  unfold binary, np.apply_along. cbn [data].
  apply Forall_flat_map, Forall_forall. intros o _.
  apply grid_Forall. intros k i _ _.
  apply nth_is_bit, unpackbits_1d_bits.
Qed.

(** C8 (as amended): astype on a packed array with the unpacked type as
    target unpacks along the last axis and keeps as many bits as the last
    entry of the logical shape says, when the array carries a logical shape
    that is not empty; with an empty logical shape, as on the packed form of
    an array without axes, the cast fails with IndexError, and with no
    logical shape at all with AttributeError.  For every other target the
    cast is handed to the parent class's astype and its outcome is returned
    unchanged. *)
Theorem C8_astype_packed :
  forall (sup : pyvalue -> pytype -> result pyvalue)
         (bytes : ndarray) (pre : list nat) (n : nat)
         (attr : option (list nat)) (t : pytype),
    (exists bits,
       np.unpackbits bytes (-1) (Some (Z.of_nat n)) = Ok bits /\
       binary bits /\
       GF2BP.astype sup (FieldArray GF2BP_cls bytes (Some (pre ++ [n])))
         (cls GF2_cls)
       = Ok (FieldArray GF2_cls bits None)) /\
    GF2BP.astype sup (FieldArray GF2BP_cls bytes (Some [])) (cls GF2_cls)
    = Raise IndexError /\
    GF2BP.astype sup (FieldArray GF2BP_cls bytes None) (cls GF2_cls)
    = Raise AttributeError /\
    (t <> cls GF2_cls ->
     GF2BP.astype sup (FieldArray GF2BP_cls bytes attr) t
     = sup (FieldArray GF2BP_cls bytes attr) t).
Proof.
  intros sup bytes pre n attr t.
  destruct (unpackbits_total bytes n) as (bits & Hbits & Hbin).
  split; [| split; [reflexivity | split; [reflexivity |]]].
  - exists bits. split; [exact Hbits | split; [exact Hbin |]].
    unfold GF2BP.astype.
    cbn [is_cls field_eqb view_ndarray get_unpacked_shape bind].
    replace (getitem_last (pre ++ [n])) with (@Ok nat n).
    + cbn [bind]. rewrite Hbits. cbn [bind].
      unfold Base.__new__. cbn [array_of bind].
      now rewrite verify_binary.
    + unfold getitem_last.
      destruct (pre ++ [n]) eqn:E; [now destruct pre |].
      rewrite <- E. now rewrite last_last.
  - intros Ht. unfold GF2BP.astype.
    destruct t as [[|] | d]; cbn [is_cls field_eqb]; congruence.
Qed.

Lemma C8_astype_packed_witness :
  GF2BP.astype ndarray_astype
    (FieldArray GF2BP_cls (mk_ndarray [1%nat] [176]) (Some [4%nat])) (cls GF2_cls)
  = Ok (FieldArray GF2_cls ex_x None) /\
  GF2BP.astype ndarray_astype
    (FieldArray GF2BP_cls (mk_ndarray [1%nat] [176]) (Some [4%nat])) (cls GF2BP_cls)
  = ndarray_astype
      (FieldArray GF2BP_cls (mk_ndarray [1%nat] [176]) (Some [4%nat])) (cls GF2BP_cls).
Proof.
  pose proof (C8_astype_packed ndarray_astype (mk_ndarray [1%nat] [176])
                [] 4%nat (Some [4%nat]) (cls GF2BP_cls)) as (H1 & _ & _ & H2).
  split.
  - destruct H1 as (bits & Hb & _ & H1). cbn [app] in H1. rewrite H1.
    cbn in Hb. now inversion Hb.
  - apply H2. discriminate.
Defined.

(** C8, counterexample: with NumPy's own [astype] as the parent cast, the
    packed form of [1,0,1,1] cast to [int64] is returned as an array whose
    elements are the converted storage bytes; no failure is raised. *)
Lemma C8_other_target_counterexample :
  GF2BP.astype ndarray_astype
    (FieldArray GF2BP_cls (mk_ndarray [1%nat] [176]) (Some [4%nat])) (np_dtype int64)
  = Ok (FieldArray GF2BP_cls (mk_ndarray [1%nat] [176]) None).
Proof. reflexivity. Qed.


(** ** Broadcasting of equal shapes *)

Lemma broadcast_shapes_rev_same (r : list nat) :
  np.broadcast_shapes_rev r r = Some r.
Proof.
  induction r as [| n r IH]; cbn [np.broadcast_shapes_rev]; [reflexivity |].
  now rewrite IH, Nat.eqb_refl.
Qed.

Lemma broadcast_shapes_same (s : list nat) : np.broadcast_shapes s s = Some s.
Proof.
  unfold np.broadcast_shapes. rewrite broadcast_shapes_rev_same. cbn.
  now rewrite rev_involutive.
Qed.

Lemma size_rev (s : list nat) : size (rev s) = size s.
Proof.
  induction s as [| n s IH]; cbn [rev]; [reflexivity |].
  rewrite size_last, IH. cbn [size fold_right]. fold (size s). lia.
Qed.

Lemma source_index_same (r : list nat) (idx : nat) :
  (idx < size r)%nat -> np.source_index r r idx = idx.
Proof.
  revert idx. induction r as [| t r IH]; intros idx Hidx.
  - cbn in *. lia.
  - cbn [np.source_index]. cbn [size fold_right] in Hidx. fold (size r) in Hidx.
    assert (Ht : (t <> 0)%nat) by nia.
    pose proof (Nat.div_mod_eq idx t) as Hdm.
    pose proof (Nat.mod_upper_bound idx t Ht) as Hm.
    rewrite IH by (apply Nat.Div0.div_lt_upper_bound; lia).
    destruct (Nat.eqb_spec t 1); [subst t |]; lia.
Qed.

Lemma broadcast_to_same (s : list nat) (d : list Z) :
  length d = size s -> np.broadcast_to (mk_ndarray s d) s = d.
Proof.
  intros Hd. unfold np.broadcast_to. cbn [shape data].
  etransitivity; [| apply (map_nth_seq d 0)].
  rewrite Hd. apply map_ext_in. intros idx Hidx. apply in_seq in Hidx.
  rewrite source_index_same; [reflexivity |]. rewrite size_rev. lia.
Qed.

Lemma binary_ufunc_same_shape (f : Z -> Z -> Z) (s : list nat) (d1 d2 : list Z) :
  length d1 = size s -> length d2 = size s ->
  np.binary_ufunc f (mk_ndarray s d1) (mk_ndarray s d2)
  = Ok (mk_ndarray s (zip_with f d1 d2)).
Proof.
  intros H1 H2. unfold np.binary_ufunc. cbn [shape].
  rewrite broadcast_shapes_same. now rewrite !broadcast_to_same.
Qed.

(** ** Dot products over packed slices *)

Section ZipWith.
Context {A B C : Type} (f : A -> B -> C).

Lemma zip_with_app (l1 l2 : list A) (k1 k2 : list B) :
  length l1 = length k1 ->
  zip_with f (l1 ++ l2) (k1 ++ k2) = zip_with f l1 k1 ++ zip_with f l2 k2.
Proof.
  revert k1. induction l1 as [| x l1 IH]; intros [| y k1] H; try discriminate H.
  - reflexivity.
  - cbn [app zip_with]. injection H as H. now rewrite IH.
Qed.

Lemma length_zip_with (l : list A) (k : list B) :
  length (zip_with f l k) = Nat.min (length l) (length k).
Proof.
  revert k. induction l as [| x l IH]; intros [| y k]; cbn [zip_with length];
    try reflexivity.
  now rewrite IH.
Qed.

Lemma zip_with_map (D : Type) (g : D -> A) (h : D -> B) (l : list D) :
  zip_with f (map g l) (map h l) = map (fun x => f (g x) (h x)) l.
Proof.
  induction l as [| x l IH]; cbn [map zip_with]; [reflexivity | now rewrite IH].
Qed.
End ZipWith.

Lemma zip_with_repeat_zero (n : nat) :
  zip_with Z.land (repeat 0 n) (repeat 0 n) = repeat 0 n.
Proof. induction n as [| n IH]; cbn; [reflexivity | now rewrite IH]. Qed.

Lemma zip_with_land_bits (u w : list Z) :
  Forall is_bit u -> Forall is_bit w ->
  zip_with Z.land u w = zip_with Z.mul u w.
Proof.
  intros Hu. revert w. induction Hu as [| x u Hx _ IH]; intros w Hw.
  - reflexivity.
  - destruct Hw as [| y w Hy Hw]; [reflexivity |].
    cbn [zip_with]. now rewrite land_bits, IH.
Qed.

Lemma bits_zip_with_land (xs ys : list Z) :
  flat_map np.unpack8 (zip_with Z.land xs ys)
  = zip_with Z.land (flat_map np.unpack8 xs) (flat_map np.unpack8 ys).
Proof.
  revert ys. induction xs as [| x xs IH]; intros [| y ys]; cbn [zip_with flat_map].
  - reflexivity.
  - reflexivity.
  - destruct (np.unpack8 x ++ flat_map np.unpack8 xs); reflexivity.
  - rewrite zip_with_app by reflexivity. now rewrite unpack8_land, IH.
Qed.

(** The bits of the AND of two packed slices of one length are the products
    of their elements, followed by zero padding. *)
Lemma bits_of_packed_and (u w : list Z) :
  length u = length w -> Forall is_bit u -> Forall is_bit w ->
  flat_map np.unpack8 (zip_with Z.land (np.packbits_1d u) (np.packbits_1d w))
  = zip_with Z.mul u w ++ repeat 0 (8 * np.cdiv8 (length u) - length u).
Proof.
  intros Hlen Hu Hw. rewrite bits_zip_with_land, !bits_packbits_1d.
  rewrite !map_nonzero_bits by assumption.
  rewrite zip_with_app by assumption.
  rewrite <- Hlen, zip_with_repeat_zero. now rewrite zip_with_land_bits.
Qed.

Lemma dot_sum (u w : list Z) : dot u w = sum (zip_with Z.mul u w).
Proof. reflexivity. Qed.

(** The vector strategy: unpack the AND and XOR-reduce the bits. *)
Lemma xor_reduce_unpacked_and (u w : list Z) :
  length u = length w -> Forall is_bit u -> Forall is_bit w ->
  np.xor_reduce
    (flat_map np.unpack8 (zip_with Z.land (np.packbits_1d u) (np.packbits_1d w)))
  = dot u w mod 2.
Proof.
  intros Hlen Hu Hw. rewrite xor_reduce_bits.
  - rewrite bits_of_packed_and by assumption.
    now rewrite sum_app, sum_repeat_zero, Z.add_0_r.
  - apply Forall_flat_map, Forall_forall. intros z _. apply unpack8_bits.
Qed.

Lemma land_byte (x y : Z) : 0 <= x < 256 -> 0 <= Z.land x y < 256.
Proof.
  intros Hx. rewrite <- (Z.mod_small x 256) by assumption.
  change 256 with (2 ^ 8). rewrite <- Z.land_ones by lia.
  rewrite <- Z.land_assoc, (Z.land_comm (Z.ones 8)), Z.land_assoc.
  rewrite Z.land_ones by lia. apply Z.mod_pos_bound. lia.
Qed.

Lemma zip_with_land_bytes (xs ys : list Z) :
  Forall (fun z => 0 <= z < 256) xs ->
  Forall (fun z => 0 <= z < 256) (zip_with Z.land xs ys).
Proof.
  intros Hx. revert ys. induction Hx as [| x xs Hx _ IH]; intros [| y ys];
    cbn [zip_with]; constructor; auto using land_byte.
Qed.

Lemma sum_bitwise_count (bytes : list Z) :
  Forall (fun z => 0 <= z < 256) bytes ->
  sum (map np.bitwise_count bytes) = sum (flat_map np.unpack8 bytes).
Proof.
  induction 1 as [| z bytes Hz _ IH]; [reflexivity |].
  cbn [map flat_map]. rewrite sum_app, <- IH, <- bitwise_count_byte by assumption.
  reflexivity.
Qed.

(** The matrix strategy: count the bits of every byte of the AND, XOR-reduce
    the counts and take the result modulo 2. *)
Lemma xor_reduce_counted_and (u w : list Z) :
  length u = length w -> Forall is_bit u -> Forall is_bit w ->
  np.xor_reduce
    (map np.bitwise_count (zip_with Z.land (np.packbits_1d u) (np.packbits_1d w)))
  mod 2
  = dot u w mod 2.
Proof.
  intros Hlen Hu Hw. rewrite xor_reduce_mod2, sum_bitwise_count.
  - rewrite bits_of_packed_and by assumption.
    now rewrite sum_app, sum_repeat_zero, Z.add_0_r.
  - apply zip_with_land_bytes, packbits_1d_bytes.
Qed.

(** The two reduction strategies agree. *)
Lemma reduction_strategies_agree (u w : list Z) :
  length u = length w -> Forall is_bit u -> Forall is_bit w ->
  np.xor_reduce
    (flat_map np.unpack8 (zip_with Z.land (np.packbits_1d u) (np.packbits_1d w)))
  = np.xor_reduce
      (map np.bitwise_count
         (zip_with Z.land (np.packbits_1d u) (np.packbits_1d w))) mod 2.
Proof.
  intros. now rewrite xor_reduce_unpacked_and, xor_reduce_counted_and.
Qed.

(** ** The steps of the packed matrix product *)

Lemma zip_with_grid (f : Z -> Z -> Z) (m n : nat) (F G : nat -> nat -> Z) :
  zip_with f (np.grid m n F) (np.grid m n G)
  = np.grid m n (fun r c => f (F r c) (G r c)).
Proof.
  unfold np.grid. induction (seq 0 m) as [| r rs IH]; cbn [flat_map].
  - reflexivity.
  - rewrite zip_with_app by (now rewrite !length_map).
    now rewrite zip_with_map, IH.
Qed.

Lemma grid_row (m n : nat) (f : nat -> nat -> Z) (o : nat) :
  (o < m)%nat ->
  firstn n (skipn (o * n) (np.grid m n f)) = map (f o) (seq 0 n).
Proof.
  intros Ho. unfold np.grid.
  rewrite block_of_flat_map with (dx := 0%nat).
  - now rewrite seq_nth.
  - intros. now rewrite length_map, length_seq.
  - now rewrite length_seq.
Qed.

Lemma grid_rows (m n : nat) (f : nat -> list Z) :
  (forall o, (o < m)%nat -> length (f o) = n) ->
  flat_map f (seq 0 m) = np.grid m n (fun r c => nth c (f r) 0).
Proof.
  intros H. unfold np.grid. apply flat_map_ext_in. intros o Ho.
  apply in_seq in Ho. rewrite <- (H o) by lia. symmetry. apply map_nth_seq.
Qed.

(** [a & b] for storage of shapes [[m; k]] and [[k]]: every row of the first
    operand is combined with the second. *)
Lemma and_rows (c : field) (x y : pyvalue) (m k : nat) (da db : list Z) :
  Base.view_input x = Ok (mk_ndarray [m; k] da) ->
  Base.view_input y = Ok (mk_ndarray [k] db) ->
  length da = (m * k)%nat -> length db = k ->
  Base.and_ c x y
  = Ok (FieldArray c
          (mk_ndarray [m; k]
             (flat_map (fun o => zip_with Z.land (firstn k (skipn (o * k) da)) db)
                (seq 0 m)))
          None).
Proof.
  intros Hx Hy Hda Hdb. unfold Base.and_. rewrite Hx, Hy. cbn [bind].
  unfold np.binary_ufunc, np.broadcast_shapes. cbn [shape rev app].
  cbn [np.broadcast_shapes_rev]. rewrite Nat.eqb_refl. cbn [option_map rev app bind].
  unfold Base._view. do 3 f_equal.
  rewrite broadcast_to_same by (cbn [size fold_right]; lia).
  unfold np.broadcast_to. cbn [shape data rev app size fold_right].
  rewrite Nat.mul_1_r, map_seq_grid.
  rewrite <- (grid_of_list m k da Hda) at 1.
  rewrite zip_with_grid. unfold np.grid.
  apply flat_map_ext_in. intros o Ho. apply in_seq in Ho.
  rewrite <- row_entries by nia.
  transitivity (zip_with Z.land (map (fun t => nth (o * k + t)%nat da 0) (seq 0 k))
                  (map (fun t => nth t db 0) (seq 0 k))).
  2: { f_equal. rewrite <- Hdb. apply map_nth_seq. }
  rewrite zip_with_map.
  apply map_ext_in. intros t Ht. apply in_seq in Ht.
  unfold np.bitwise_and. f_equal. f_equal. cbn [np.source_index].
  assert (Hmod : ((o * k + t) mod k = t)%nat).
  { rewrite Nat.add_comm, Nat.Div0.mod_add. apply Nat.mod_small. lia. }
  rewrite Hmod. destruct (Nat.eqb_spec k 1); lia.
Qed.

(** XOR reduction along the last axis. *)
Lemma xor_reduce_last (pre : list nat) (n : nat) (d : list Z) :
  length d = (size pre * n)%nat ->
  np.bitwise_xor_reduce (mk_ndarray (pre ++ [n]) d) (-1)
  = Ok (mk_ndarray pre
          (map (fun o => np.xor_reduce (firstn n (skipn (o * n) d)))
             (seq 0 (size pre)))).
Proof.
  intros Hd. unfold np.bitwise_xor_reduce. cbn [shape data].
  rewrite normalize_axis_last. cbn [bind].
  destruct (last_axis_parts pre n) as (-> & -> & ->).
  rewrite app_nil_r. change (size []) with 1%nat. rewrite grid_one.
  do 2 f_equal. apply map_ext_in. intros o Ho. apply in_seq in Ho.
  now rewrite slice_along_last by nia.
Qed.

(** Repacking a vector along axis 0 packs it as it was. *)
Lemma packbits_axis0_vector (n : nat) (v : list Z) :
  length v = n ->
  np.packbits (mk_ndarray [n] v) 0 = Ok (packed_last [] n v).
Proof.
  intros Hv. unfold np.packbits, np.atleast_1d. cbn [shape length].
  change (np.normalize_axis 0 1) with (@Ok nat 0%nat). cbn [bind nth].
  change [n] with ([] ++ [n]). change 0%nat with (length (@nil nat)) at 1.
  rewrite apply_along_last.
  - reflexivity.
  - cbn [size fold_right]. lia.
  - intros l Hl. now rewrite length_packbits_1d, Hl.
Qed.

(** Repacking a matrix along axis 0 packs every column. *)
Lemma packbits_axis0_matrix (n p : nat) (B : list Z) :
  np.packbits (mk_ndarray [n; p] B) 0
  = Ok (mk_ndarray [np.cdiv8 n; p]
          (np.grid (np.cdiv8 n) p
             (fun k j => nth k (np.packbits_1d (matrix_col n p B j)) 0))).
Proof.
  unfold np.packbits, np.atleast_1d. cbn [shape length].
  change (np.normalize_axis 0 2) with (@Ok nat 0%nat). cbn [bind nth].
  unfold np.apply_along. cbn [shape data firstn skipn nth app size fold_right seq
    flat_map].
  rewrite app_nil_r, Nat.mul_1_r. reflexivity.
Qed.

Lemma getitem_col_grid (k p : nat) (F : nat -> nat -> Z) (i : nat) :
  (i < p)%nat ->
  np.getitem_col (mk_ndarray [k; p] (np.grid k p F)) i
  = Ok (mk_ndarray [k] (map (fun r => F r i) (seq 0 k))).
Proof.
  intros Hi. unfold np.getitem_col. cbn [shape data].
  destruct (Nat.ltb_spec i p); [| lia].
  change (size []) with 1%nat. rewrite grid_one. do 2 f_equal.
  apply map_ext_in. intros r Hr. apply in_seq in Hr.
  replace ((r * p + i) * 1 + 0)%nat with (r * p + i)%nat by lia.
  apply grid_nth; lia.
Qed.

Lemma shape_eqb_refl (s : list nat) : shape_eqb s s = true.
Proof. unfold shape_eqb. destruct (list_eq_dec Nat.eq_dec s s); congruence. Qed.

Lemma setitem_col_grid (m p : nat) (old v : list Z) (i : nat) :
  (i < p)%nat -> length v = m ->
  np.setitem_col (mk_ndarray [m; p] old) i (mk_ndarray [m] v)
  = Ok (mk_ndarray [m; p]
          (np.grid m p
             (fun r j => if (j =? i)%nat then nth r v 0
                         else nth (r * p + j) old 0))).
Proof.
  intros Hi Hv. unfold np.setitem_col. cbn [shape data].
  destruct (Nat.ltb_spec i p); [| lia].
  rewrite broadcast_shapes_same, shape_eqb_refl.
  rewrite broadcast_to_same by (cbn [size fold_right]; lia).
  change (size []) with 1%nat. do 2 f_equal. unfold np.grid at 2.
  apply flat_map_ext_in. intros r Hr. rewrite grid_one.
  apply map_ext. intros j.
  replace (r * 1 + 0)%nat with r by lia.
  replace ((r * p + j) * 1 + 0)%nat with (r * p + j)%nat by lia.
  reflexivity.
Qed.

Lemma row_of_rows (m n : nat) (g : nat -> list Z) (o : nat) :
  (forall r, (r < m)%nat -> length (g r) = n) -> (o < m)%nat ->
  firstn n (skipn (o * n) (flat_map g (seq 0 m))) = g o.
Proof.
  intros Hg Ho. rewrite block_of_flat_map with (dx := 0%nat).
  - now rewrite seq_nth.
  - intros r Hr. apply in_seq in Hr. apply Hg. lia.
  - now rewrite length_seq.
Qed.

Lemma length_rows (m n : nat) (g : nat -> list Z) :
  (forall r, (r < m)%nat -> length (g r) = n) ->
  length (flat_map g (seq 0 m)) = (m * n)%nat.
Proof.
  intros Hg. rewrite flat_map_length_const with (n := n).
  - now rewrite length_seq.
  - intros r Hr. apply in_seq in Hr. apply Hg. lia.
Qed.

Lemma packed_last_vector (n : nat) (v : list Z) :
  length v = n -> packed_last [] n v = mk_ndarray [np.cdiv8 n] (np.packbits_1d v).
Proof.
  intros Hv. unfold packed_last. cbn [app size fold_right seq flat_map Nat.mul skipn].
  rewrite app_nil_r, firstn_all2 by lia. reflexivity.
Qed.

Lemma packed_last_matrix (m n : nat) (A : list Z) :
  packed_last [m] n A
  = mk_ndarray [m; np.cdiv8 n]
      (flat_map (fun o => np.packbits_1d (firstn n (skipn (o * n) A))) (seq 0 m)).
Proof.
  unfold packed_last. cbn [app size fold_right]. now rewrite Nat.mul_1_r.
Qed.

Lemma matrix_row_run (n : nat) (A : list Z) (i : nat) :
  (i * n + n <= length A)%nat ->
  matrix_row n A i = firstn n (skipn (i * n) A).
Proof. intros H. unfold matrix_row, entry. now apply row_entries. Qed.

Lemma length_matrix_col (m n : nat) (B : list Z) (j : nat) :
  length (matrix_col m n B j) = m.
Proof. unfold matrix_col. now rewrite length_map, length_seq. Qed.

Lemma matrix_col_bits (m n : nat) (B : list Z) (j : nat) :
  Forall is_bit B -> Forall is_bit (matrix_col m n B j).
Proof.
  intros H. unfold matrix_col, entry. apply Forall_map, Forall_forall.
  intros k _. now apply nth_is_bit.
Qed.

(** [a & b] where the rows of [a] are given one by one. *)
Lemma and_of_rows (c : field) (m k : nat) (g : nat -> list Z) (db : list Z)
  (sa sb : option (list nat)) :
  (forall r, (r < m)%nat -> length (g r) = k) -> length db = k ->
  Base.and_ c (FieldArray c (mk_ndarray [m; k] (flat_map g (seq 0 m))) sa)
    (FieldArray c (mk_ndarray [k] db) sb)
  = Ok (FieldArray c
          (mk_ndarray [m; k]
             (flat_map (fun o => zip_with Z.land (g o) db) (seq 0 m)))
          None).
Proof.
  intros Hg Hdb.
  rewrite and_rows with (m := m) (k := k) (da := flat_map g (seq 0 m)) (db := db);
    try reflexivity; [| now apply length_rows | assumption].
  do 3 f_equal. apply flat_map_ext_in. intros o Ho. apply in_seq in Ho.
  rewrite row_of_rows by (assumption || lia). reflexivity.
Qed.

(** The vector case of the packed product. *)
Lemma matmul_vector (m n : nat) (A v : list Z) :
  length A = (m * n)%nat -> length v = n ->
  Forall is_bit A -> Forall is_bit v ->
  _matmul GF2BP_cls
    [FieldArray GF2BP_cls (packed_last [m] n A) (Some [m; n]);
     FieldArray GF2BP_cls (packed_last [] n v) (Some [n])]
  = Ok (FieldArray GF2BP_cls
          (packed_last [] m (data (matvec_mod2 m n A v))) (Some [m])).
Proof.
  intros HA Hv HbA Hbv.
  unfold _matmul, matmul_ufunc_bitpacked.__call__.
  cbn [isinstance field_eqb andb assert bind get_unpacked_shape view_ndarray
    getitem_last last].
  rewrite unpackbits_packed_last by (cbn [size fold_right]; (lia || assumption)).
  cbn [bind app].
  rewrite packbits_axis0_vector by assumption. cbn [bind].
  rewrite packed_last_vector by assumption.
  rewrite packed_last_matrix.
  cbn [shape getitem_last getitem_first last bind length].
  rewrite Nat.eqb_refl. cbn [assert bind Nat.eqb].
  unfold Base._view.
  assert (Hrow : forall r, (r < m)%nat ->
            length (np.packbits_1d (firstn n (skipn (r * n) A))) = np.cdiv8 n).
  { intros r Hr. now rewrite length_packbits_1d, length_row by nia. }
  assert (Hand : forall r, (r < m)%nat ->
            length (zip_with Z.land (np.packbits_1d (firstn n (skipn (r * n) A)))
                      (np.packbits_1d v)) = np.cdiv8 n).
  { intros r Hr.
    rewrite length_zip_with, Hrow, length_packbits_1d, Hv by assumption. lia. }
  rewrite and_of_rows; [| exact Hrow | now rewrite length_packbits_1d, Hv].
  cbn [bind view_ndarray].
  change [m; np.cdiv8 n] with ([m] ++ [np.cdiv8 n]).
  rewrite unpackbits_last_all
    by (rewrite length_rows with (n := np.cdiv8 n); cbn [size fold_right];
        (lia || assumption)).
  cbn [bind]. rewrite xor_reduce_last.
  2: { cbn [size fold_right]. rewrite Nat.mul_1_r.
       apply length_rows. intros r Hr.
       rewrite row_of_rows, length_bits, Hand by assumption. reflexivity. }
  cbn [bind size fold_right]. rewrite Nat.mul_1_r.
  replace (map _ (seq 0 m)) with (data (matvec_mod2 m n A v)).
  - change [m] with ([] ++ [m]) at 1.
    rewrite packbits_last; [reflexivity |].
    cbn [size fold_right matvec_mod2 data]. rewrite length_map, length_seq. lia.
  - cbn [matvec_mod2 data]. apply map_ext_in. intros r Hr. apply in_seq in Hr.
    rewrite row_of_rows with (m := m);
      [| intros r' Hr'; rewrite row_of_rows, length_bits, Hand by assumption;
         reflexivity | lia].
    rewrite row_of_rows by (assumption || lia).
    rewrite xor_reduce_unpacked_and.
    + now rewrite matrix_row_run by nia.
    + rewrite length_row by nia. now symmetry.
    + now apply Forall_row.
    + assumption.
Qed.

Lemma map_flat_map_rows (f : Z -> Z) (g : nat -> list Z) (l : list nat) :
  map f (flat_map g l) = flat_map (fun o => map f (g o)) l.
Proof.
  induction l as [| o l IH]; cbn [flat_map map]; [reflexivity |].
  now rewrite map_app, IH.
Qed.

Lemma grid_zero (m n : nat) : np.grid m n (fun _ _ => 0) = repeat 0 (m * n).
Proof.
  apply nth_ext with (d := 0) (d' := 0).
  - now rewrite grid_length, repeat_length.
  - intros idx Hidx. rewrite grid_length in Hidx. rewrite nth_repeat.
    assert (Hn : (n <> 0)%nat) by nia.
    pose proof (Nat.div_mod_eq idx n) as Hdm.
    pose proof (Nat.mod_upper_bound idx n Hn) as Hm.
    replace idx with ((idx / n) * n + idx mod n)%nat by lia.
    apply grid_nth; [| assumption].
    apply Nat.Div0.div_lt_upper_bound. lia.
Qed.

Section MatrixCase.
Variables (m n p : nat) (A B : list Z).
Hypothesis HA : length A = (m * n)%nat.
Hypothesis HB : length B = (n * p)%nat.
Hypothesis HbA : Forall is_bit A.
Hypothesis HbB : Forall is_bit B.

Let a : pyvalue := FieldArray GF2BP_cls (packed_last [m] n A) (Some [m; n]).
Let b_cols : ndarray :=
  mk_ndarray [np.cdiv8 n; p]
    (np.grid (np.cdiv8 n) p
       (fun k j => nth k (np.packbits_1d (matrix_col n p B j)) 0)).
Let F (r j : nat) : Z := dot (matrix_row n A r) (matrix_col n p B j) mod 2.

(** One iteration of the loop writes column [i] of the product. *)
Lemma column_step_writes (old : list Z) (i : nat) :
  (i < p)%nat ->
  matmul_ufunc_bitpacked.column_step GF2BP_cls a b_cols (mk_ndarray [m; p] old) i
  = Ok (mk_ndarray [m; p]
          (np.grid m p
             (fun r j => if (j =? i)%nat then F r i else nth (r * p + j) old 0))).
Proof.
  intros Hi. unfold matmul_ufunc_bitpacked.column_step, b_cols, a.
  rewrite getitem_col_grid by assumption. cbn [bind].
  replace (map _ (seq 0 (np.cdiv8 n)))
    with (np.packbits_1d (matrix_col n p B i)).
  2: { rewrite <- (length_matrix_col n p B i) at 2.
       rewrite <- length_packbits_1d. symmetry. apply map_nth_seq. }
  rewrite packed_last_matrix. unfold Base._view.
  assert (Hrow : forall r, (r < m)%nat ->
            length (np.packbits_1d (firstn n (skipn (r * n) A))) = np.cdiv8 n).
  { intros r Hr. now rewrite length_packbits_1d, length_row by nia. }
  assert (Hcol : length (np.packbits_1d (matrix_col n p B i)) = np.cdiv8 n).
  { now rewrite length_packbits_1d, length_matrix_col. }
  rewrite and_of_rows by assumption. cbn [bind view_ndarray].
  unfold np.unary_ufunc. cbn [shape data].
  rewrite map_flat_map_rows.
  change [m; np.cdiv8 n] with ([m] ++ [np.cdiv8 n]).
  assert (Hcnt : forall r, (r < m)%nat ->
            length (map np.bitwise_count
                      (zip_with Z.land
                         (np.packbits_1d (firstn n (skipn (r * n) A)))
                         (np.packbits_1d (matrix_col n p B i)))) = np.cdiv8 n).
  { intros r Hr. rewrite length_map, length_zip_with, Hrow, Hcol by assumption.
    lia. }
  rewrite xor_reduce_last
    by (cbn [size fold_right]; rewrite Nat.mul_1_r; now apply length_rows).
  cbn [bind size fold_right shape data]. rewrite Nat.mul_1_r.
  rewrite setitem_col_grid
    by (assumption || now rewrite !length_map, length_seq).
  do 2 f_equal. apply grid_ext. intros r j Hr Hj.
  destruct (j =? i)%nat; [| reflexivity].
  rewrite map_map, nth_map_seq by assumption.
  rewrite row_of_rows by assumption.
  rewrite xor_reduce_counted_and.
  - unfold F. now rewrite matrix_row_run by nia.
  - now rewrite length_row, length_matrix_col by nia.
  - now apply Forall_row.
  - now apply matrix_col_bits.
Qed.

(** The product with its columns from [i] on still zero. *)
Let partial_product (i : nat) : ndarray :=
  mk_ndarray [m; p] (np.grid m p (fun r j => if (j <? i)%nat then F r j else 0)).

Lemma loop_fills_columns (len i : nat) :
  (i + len = p)%nat ->
  matmul_ufunc_bitpacked.for_range
    (matmul_ufunc_bitpacked.column_step GF2BP_cls a b_cols)
    (partial_product i) (seq i len)
  = Ok (partial_product p).
Proof.
  revert i. induction len as [| len IH]; intros i Hi.
  - cbn. replace i with p by lia. reflexivity.
  - cbn [seq matmul_ufunc_bitpacked.for_range]. unfold partial_product at 1.
    rewrite column_step_writes by lia. cbn [bind].
    rewrite <- (IH (S i)) by lia. f_equal. unfold partial_product. f_equal.
    apply grid_ext. intros r j Hr Hj. rewrite grid_nth by assumption.
    destruct (Nat.eqb_spec j i) as [-> | Hne].
    + destruct (Nat.ltb_spec i (S i)); [reflexivity | lia].
    + destruct (Nat.ltb_spec j i), (Nat.ltb_spec j (S i)); (reflexivity || lia).
Qed.

(** The matrix case of the packed product. *)
Lemma matmul_matrix :
  _matmul GF2BP_cls
    [a; FieldArray GF2BP_cls (packed_last [n] p B) (Some [n; p])]
  = Ok (FieldArray GF2BP_cls
          (packed_last [m] p (data (matmul_mod2 m n p A B))) (Some [m; p])).
Proof.
  unfold _matmul, matmul_ufunc_bitpacked.__call__, a.
  cbn [isinstance field_eqb andb assert bind get_unpacked_shape view_ndarray
    getitem_last last].
  rewrite unpackbits_packed_last
    by (cbn [size fold_right]; (lia || assumption)).
  cbn [bind app]. rewrite packbits_axis0_matrix. cbn [bind].
  rewrite packed_last_matrix.
  cbn [shape getitem_last getitem_first last bind length].
  rewrite Nat.eqb_refl. cbn [assert bind Nat.eqb].
  unfold Base.Zeros, Base._view, np.zeros. cbn [view_ndarray bind size fold_right].
  rewrite Nat.mul_1_r, <- grid_zero.
  rewrite <- packed_last_matrix.
  pose proof (loop_fills_columns p 0 eq_refl) as Hloop.
  change (partial_product 0)
    with (mk_ndarray [m; p] (np.grid m p (fun _ _ => 0))) in Hloop.
  unfold a, b_cols in Hloop. rewrite Hloop. unfold partial_product.
  cbn [bind].
  replace (np.grid m p (fun r j => if (j <? p)%nat then F r j else 0))
    with (data (matmul_mod2 m n p A B)).
  - change [m; p] with ([m] ++ [p]) at 1.
    rewrite packbits_last; [reflexivity |].
    cbn [size fold_right matmul_mod2 data]. rewrite grid_length. lia.
  - cbn [matmul_mod2 data]. apply grid_ext. intros r j Hr Hj.
    destruct (Nat.ltb_spec j p); [reflexivity | lia].
Qed.

End MatrixCase.

(** ** Scalar rules *)

(** C6: for a, b in {0,1} and an integer exponent e, reciprocal(a) is 1 for
    a = 1 and fails with DivisionByZero for a = 0; divide(a,b) is a AND b for
    b = 1 and fails with DivisionByZero for b = 0; power(a,e) is 1 for e = 0,
    a for e <> 0 (when a <> 0 or e > 0), and fails with DivisionByZero
    exactly when a = 0 and e < 0. *)
Theorem C6_reciprocal_divide_power :
  forall a b e : Z, is_bit a -> is_bit b ->
    (a = 1 -> reciprocal.calculate a = Ok 1) /\
    (a = 0 -> reciprocal.calculate a = Raise DivisionByZero) /\
    (b = 1 -> divide.calculate a b = Ok (Z.b2z ((a =? 1) && (b =? 1)))) /\
    (b = 0 -> divide.calculate a b = Raise DivisionByZero) /\
    (e = 0 -> power.calculate a e = Ok 1) /\
    (e <> 0 -> a <> 0 \/ e > 0 -> power.calculate a e = Ok a) /\
    (power.calculate a e = Raise DivisionByZero <-> a = 0 /\ e < 0) /\
    (forall err, power.calculate a e = Raise err -> err = DivisionByZero).
Proof.
  intros a b e Ha Hb.
  unfold reciprocal.calculate, divide.calculate, power.calculate, DivisionByZero.
  repeat split.
  - intros ->; reflexivity.
  - intros ->; reflexivity.
  - intros ->; destruct Ha as [-> | ->]; reflexivity.
  - intros ->; reflexivity.
  - intros ->. destruct (a =? 0); reflexivity.
  - intros He H.
    destruct (Z.eqb_spec a 0) as [E | E], (Z.ltb_spec e 0) as [L | L];
      cbn [andb]; destruct (Z.eqb_spec e 0); try reflexivity; try lia.
  - destruct (Z.eqb_spec a 0) as [E | E]; [assumption |].
    cbn [andb] in H. destruct (e =? 0); discriminate.
  - destruct (Z.eqb_spec a 0) as [E | E], (Z.ltb_spec e 0) as [L | L];
      cbn [andb] in H; try assumption; destruct (e =? 0); discriminate.
  - intros [-> L]. destruct (Z.ltb_spec e 0); [reflexivity | lia].
  - intros err.
    destruct ((a =? 0) && (e <? 0)); [congruence |].
    destruct (e =? 0); discriminate.
Qed.

Lemma C6_reciprocal_divide_power_witness :
  reciprocal.calculate 0 = Raise DivisionByZero /\
  divide.calculate 0 0 = Raise DivisionByZero /\
  power.calculate 0 (-1) = Raise DivisionByZero.
Proof.
  pose proof (C6_reciprocal_divide_power 0 0 (-1) (or_introl eq_refl)
                (or_introl eq_refl)) as H.
  destruct H as (_ & H1 & _ & H2 & _ & _ & H3 & _).
  split; [apply H1; reflexivity |].
  split; [apply H2; reflexivity |].
  apply H3. split; [reflexivity | lia].
Defined.

(** C7: for a, b in {0,1}, log(a,b) is 0 when a <> 0 and b = 1, fails with
    UndefinedLogarithm whenever a = 0, whatever b, and fails with
    InvalidGenerator whenever a <> 0 and b <> 1. *)
Theorem C7_log :
  forall a b : Z, is_bit a -> is_bit b ->
    (a <> 0 -> b = 1 -> log.calculate a b = Ok 0) /\
    (a = 0 -> log.calculate a b = Raise UndefinedLogarithm) /\
    (a <> 0 -> b <> 1 -> log.calculate a b = Raise InvalidGenerator).
Proof.
  intros a b _ _. unfold log.calculate, UndefinedLogarithm, InvalidGenerator.
  repeat split.
  - intros Ha ->. destruct (Z.eqb_spec a 0); [contradiction | reflexivity].
  - intros ->. reflexivity.
  - intros Ha Hb. destruct (Z.eqb_spec a 0); [contradiction |].
    destruct (Z.eqb_spec b 1); [contradiction | reflexivity].
Qed.

Lemma C7_log_witness :
  log.calculate 1 1 = Ok 0 /\
  log.calculate 0 1 = Raise UndefinedLogarithm /\
  log.calculate 1 0 = Raise InvalidGenerator.
Proof.
  split; [| split].
  - apply (C7_log 1 1); [right | right | lia |]; reflexivity.
  - apply (C7_log 0 1); [left | right |]; reflexivity.
  - apply (C7_log 1 0); [right | left | lia | lia]; reflexivity.
Defined.

(** C5: for a, b in {0,1}, add and subtract are a XOR b, multiply is a AND b,
    negate and sqrt return their operand; none of them fails, on scalars
    (field elements are arrays without axes) and elementwise on arrays of one
    shape. *)
Theorem C5_total_rules :
  forall (a b : Z) (c : field) (x y : pyvalue) (s : list nat) (dx dy : list Z),
    is_bit a -> is_bit b ->
    Base.view_input x = Ok (mk_ndarray s dx) ->
    Base.view_input y = Ok (mk_ndarray s dy) ->
    length dx = size s -> length dy = size s ->
    let T := UFuncMixin_2_1 c in
    (np.bitwise_xor a b = Z.b2z (xorb (a =? 1) (b =? 1)) /\
     np.bitwise_and a b = Z.b2z ((a =? 1) && (b =? 1)) /\
     np.positive a = a) /\
    (let scalar z := FieldArray c (mk_ndarray [] [z]) None in
     _add T [scalar a; scalar b] = Ok (scalar (Z.b2z (xorb (a =? 1) (b =? 1)))) /\
     _subtract T [scalar a; scalar b]
     = Ok (scalar (Z.b2z (xorb (a =? 1) (b =? 1)))) /\
     _multiply T [scalar a; scalar b]
     = Ok (scalar (Z.b2z ((a =? 1) && (b =? 1)))) /\
     _negative T [scalar a] = Ok (scalar a) /\
     _sqrt T [scalar a] = Ok (scalar a)) /\
    (_add T [x; y] = Ok (FieldArray c (mk_ndarray s (zip_with Z.lxor dx dy)) None) /\
     _subtract T [x; y] = Ok (FieldArray c (mk_ndarray s (zip_with Z.lxor dx dy)) None) /\
     _multiply T [x; y] = Ok (FieldArray c (mk_ndarray s (zip_with Z.land dx dy)) None) /\
     _negative T [x] = Ok (FieldArray c (mk_ndarray s dx) None) /\
     forall attr, _sqrt T [FieldArray c (mk_ndarray s dx) attr]
                  = Ok (FieldArray c (mk_ndarray s dx) None)).
Proof.
  intros a b c x y s dx dy Ha Hb Hx Hy Hdx Hdy T.
  split; [| split].
  - destruct Ha as [-> | ->], Hb as [-> | ->]; repeat split; reflexivity.
  - destruct Ha as [-> | ->], Hb as [-> | ->]; repeat split; reflexivity.
  - assert (Hx' : Base.view_input_or_int x = Ok (mk_ndarray s dx))
      by (destruct x; solve [discriminate Hx | exact Hx]).
    assert (Hy' : Base.view_input_or_int y = Ok (mk_ndarray s dy))
      by (destruct y; solve [discriminate Hy | exact Hy]).
    subst T. cbn [_add _subtract _multiply _negative _sqrt UFuncMixin_2_1].
    unfold add_ufunc.__call__, subtract_ufunc.__call__, multiply_ufunc.__call__,
      negative_ufunc.__call__, Base.override_ufunc, Base.override_ufunc_or_int,
      Base.override_unary_ufunc, Base.binary_call, Base.binary_call_with,
      Base.unary_call, sqrt.__call__, sqrt.implementation.
    rewrite Hx, Hy, Hx', Hy'. cbn [bind].
    rewrite !binary_ufunc_same_shape by assumption. cbn [bind].
    unfold np.unary_ufunc, np.positive. cbn [shape data].
    rewrite map_id. repeat split; reflexivity.
Qed.

Lemma C5_total_rules_witness :
  _add (UFuncMixin_2_1 GF2_cls)
    [FieldArray GF2_cls ex_x None; FieldArray GF2_cls ex_v4 None]
  = Ok (FieldArray GF2_cls (mk_ndarray [4%nat] [0; 1; 1; 0]) None) /\
  _multiply (UFuncMixin_2_1 GF2_cls)
    [FieldArray GF2_cls ex_x None; FieldArray GF2_cls ex_v4 None]
  = Ok (FieldArray GF2_cls (mk_ndarray [4%nat] [1; 0; 0; 1]) None).
Proof.
  pose proof (C5_total_rules 1 0 GF2_cls
                (FieldArray GF2_cls ex_x None) (FieldArray GF2_cls ex_v4 None)
                [4%nat] [1; 0; 1; 1] [1; 1; 0; 1]
                (or_intror eq_refl) (or_introl eq_refl)
                eq_refl eq_refl eq_refl eq_refl) as H.
  cbv zeta in H. destruct H as (_ & _ & H1 & _ & H2 & _).
  split; [exact H1 | exact H2].
Defined.

(** ** Shape propagation of the packed dispatchers *)

Lemma binary_call_view (view1 view2 : pyvalue -> result ndarray) (c : field)
  (rule : ndarray -> ndarray -> result ndarray)
  (inputs : list pyvalue) (out : pyvalue) :
  Base.binary_call_with view1 view2 c rule inputs = Ok out ->
  exists o, out = FieldArray c o None.
Proof.
  unfold Base.binary_call_with. intros H.
  destruct inputs as [| x [| y [| z l]]]; try discriminate H.
  destruct (view1 x) as [a |]; [| discriminate H].
  destruct (view2 y) as [b |]; [| discriminate H].
  cbn [bind] in H. destruct (rule a b) as [o |]; [| discriminate H].
  cbn [bind Base._view] in H. injection H as <-. exists o. reflexivity.
Qed.

Lemma propagate_first_shape (view1 view2 : pyvalue -> result ndarray)
  (c : field) (rule : ndarray -> ndarray -> result ndarray)
  (x y : pyvalue) (s : list nat) (out : pyvalue) :
  get_unpacked_shape x = Ok s ->
  (output <- Base.binary_call_with view1 view2 c rule [x; y] ;;
   x0 <- first_input [x; y] ;;
   s0 <- get_unpacked_shape x0 ;;
   set_unpacked_shape output s0) = Ok out ->
  exists o, out = FieldArray c o (Some s).
Proof.
  intros Hs H.
  destruct (Base.binary_call_with view1 view2 c rule [x; y]) as [output |] eqn:E;
    [| discriminate].
  destruct (binary_call_view _ _ _ _ _ _ E) as (o & ->).
  cbn [bind first_input] in H. rewrite Hs in H. cbn in H.
  injection H as <-. eauto.
Qed.

(** C3 (as amended): add, subtract, multiply and divide on a packed array
    yield, whenever they return, a result whose logical-shape descriptor is
    that of the first operand, also when the second operand is a scalar or
    the storage shapes are broadcast; add, subtract and multiply return
    whenever the storage shapes can be broadcast, and the storage of the
    result then has the broadcast shape. *)
Theorem C3_first_operand_shape :
  forall (c : field) (parent_divide : ndarray -> ndarray -> result ndarray)
         (x y : pyvalue) (s : list nat),
    get_unpacked_shape x = Ok s ->
    let T := UFuncMixin_2_1_BitPacked c parent_divide in
    (forall call out,
        In call [_add T; _subtract T; _multiply T; _divide T] ->
        call [x; y] = Ok out ->
        exists o, out = FieldArray c o (Some s)) /\
    (forall a b sh,
        Base.view_input x = Ok a -> Base.view_input y = Ok b ->
        np.broadcast_shapes (shape a) (shape b) = Some sh ->
        forall call,
          In call [_add T; _subtract T; _multiply T] ->
          exists o, call [x; y] = Ok (FieldArray c o (Some s)) /\ shape o = sh).
Proof.
  intros c parent_divide x y s Hs T. subst T.
  cbn [_add _subtract _multiply _divide UFuncMixin_2_1_BitPacked].
  split.
  - intros call out Hin Hcall.
    cbn [In] in Hin.
    destruct Hin as [<- | [<- | [<- | [<- | []]]]];
      eapply propagate_first_shape; eauto.
  - intros a b sh Ha Hb Hsh call Hin. cbn [In] in Hin.
    assert (Ha' : Base.view_input_or_int x = Ok a)
      by (destruct x; solve [discriminate Ha | exact Ha]).
    assert (Hb' : Base.view_input_or_int y = Ok b)
      by (destruct y; solve [discriminate Hb | exact Hb]).
    destruct Hin as [<- | [<- | [<- | []]]];
      unfold add_ufunc_bitpacked.__call__, subtract_ufunc_bitpacked.__call__,
        multiply_ufunc_bitpacked.__call__, add_ufunc.__call__,
        subtract_ufunc.__call__, multiply_ufunc.__call__,
        Base.override_ufunc, Base.override_ufunc_or_int, Base.binary_call,
        Base.binary_call_with, np.binary_ufunc;
      rewrite ?Ha, ?Hb, ?Ha', ?Hb'; cbn [bind]; rewrite Hsh;
      cbn [bind first_input Base._view];
      rewrite Hs; cbn [bind set_unpacked_shape];
      eexists; (split; [reflexivity | reflexivity]).
Qed.

Lemma C3_first_operand_shape_witness :
  exists o,
    _add (UFuncMixin_2_1_BitPacked GF2BP_cls vectorised_divide)
      [FieldArray GF2BP_cls (mk_ndarray [2; 1]%nat [160; 96]) (Some [2; 3]%nat);
       FieldArray GF2BP_cls (mk_ndarray [2; 1]%nat [160; 96]) (Some [2; 3]%nat)]
    = Ok (FieldArray GF2BP_cls o (Some [2; 3]%nat)) /\
    shape o = [2; 1]%nat.
Proof.
  pose proof (C3_first_operand_shape GF2BP_cls vectorised_divide
    (FieldArray GF2BP_cls (mk_ndarray [2; 1]%nat [160; 96]) (Some [2; 3]%nat))
    (FieldArray GF2BP_cls (mk_ndarray [2; 1]%nat [160; 96]) (Some [2; 3]%nat))
    [2; 3]%nat eq_refl) as H.
  cbv zeta in H. destruct H as [_ H].
  apply (H (mk_ndarray [2; 1]%nat [160; 96]) (mk_ndarray [2; 1]%nat [160; 96])
           [2; 1]%nat eq_refl eq_refl eq_refl).
  left. reflexivity.
Defined.

(** C3, counterexample: adding a packed array of logical shape [3] and a
    packed array of logical shape [2,3] broadcasts the storage to two rows,
    but the result carries the logical shape [3] of the first operand, not
    the broadcast-combined shape [2,3]. *)
Lemma C3_broadcast_counterexample :
  _add (UFuncMixin_2_1_BitPacked GF2BP_cls vectorised_divide)
    [FieldArray GF2BP_cls (mk_ndarray [1%nat] [224]) (Some [3%nat]);
     FieldArray GF2BP_cls (mk_ndarray [2; 1]%nat [160; 96]) (Some [2; 3]%nat)]
  = Ok (FieldArray GF2BP_cls (mk_ndarray [2; 1]%nat [64; 128]) (Some [3%nat])) /\
  np.broadcast_shapes [3%nat] [2; 3]%nat = Some [2; 3]%nat.
Proof. split; reflexivity. Qed.

(** ** The packed matrix product: operand and dimension checks *)

(** C10: the packed matrix product asserts that both operands are packed
    arrays; when either is not, it raises AssertionError before anything is
    computed, and no operand is converted. *)
Theorem C10_matmul_requires_packed :
  forall (c : field) (a b : pyvalue),
    isinstance a GF2BP_cls = false \/ isinstance b GF2BP_cls = false ->
    matmul_ufunc_bitpacked.__call__ c [a; b] = Raise AssertionError.
Proof.
  intros c a b H. unfold matmul_ufunc_bitpacked.__call__.
  replace (isinstance a GF2BP_cls && isinstance b GF2BP_cls) with false.
  - reflexivity.
  - symmetry. apply andb_false_iff. exact H.
Qed.

Lemma C10_matmul_requires_packed_witness :
  matmul_ufunc_bitpacked.__call__ GF2BP_cls
    [FieldArray GF2_cls ex_A None;
     FieldArray GF2BP_cls (mk_ndarray [1%nat] [192]) (Some [3%nat])]
  = Raise AssertionError.
Proof.
  apply (C10_matmul_requires_packed GF2BP_cls). left. reflexivity.
Defined.

(** C4: the packed forms of a 2x3 matrix and of a vector of length 4 are
    multiplied without any failure: the assertion compares the lengths of the
    packed storage, one byte on either side. *)
Lemma C4_mismatch_is_not_detected :
  GF2.astype ndarray_astype (FieldArray GF2_cls ex_A None) (cls GF2BP_cls)
  = Ok (FieldArray GF2BP_cls (mk_ndarray [2; 1]%nat [160; 96]) (Some [2; 3]%nat)) /\
  GF2.astype ndarray_astype (FieldArray GF2_cls ex_v4 None) (cls GF2BP_cls)
  = Ok (FieldArray GF2BP_cls (mk_ndarray [1%nat] [208]) (Some [4%nat])) /\
  _matmul GF2BP_cls
    [FieldArray GF2BP_cls (mk_ndarray [2; 1]%nat [160; 96]) (Some [2; 3]%nat);
     FieldArray GF2BP_cls (mk_ndarray [1%nat] [208]) (Some [4%nat])]
  = Ok (FieldArray GF2BP_cls (mk_ndarray [1%nat] [192]) (Some [2%nat])).
Proof. repeat split; reflexivity. Qed.

(** ** The packed matrix product: correctness *)

Lemma matvec_mod2_bits (m n : nat) (A v : list Z) :
  Forall is_bit (data (matvec_mod2 m n A v)).
Proof.
  cbn [matvec_mod2 data]. apply Forall_map, Forall_forall.
  intros i _. apply mod2_is_bit.
Qed.

Lemma matmul_mod2_bits (m n p : nat) (A B : list Z) :
  Forall is_bit (data (matmul_mod2 m n p A B)).
Proof.
  cbn [matmul_mod2 data]. apply grid_Forall. intros i j _ _. apply mod2_is_bit.
Qed.

(** C1: for all M, N, P >= 0 and all 0/1 matrices A of shape [M,N], vectors v
    of shape [N] and matrices B of shape [N,P], the packed matrix product of
    the packed operands returns a packed array that unpacks to the integer
    product reduced modulo 2, in the vector case (XOR reduction of the
    unpacked bits) and in the matrix case (bit counts modulo 2) alike. *)
Theorem C1_packed_matmul :
  forall (sup_unpacked sup_packed : pyvalue -> pytype -> result pyvalue)
         (m n p : nat) (A v B : list Z),
    length A = (m * n)%nat -> length v = n -> length B = (n * p)%nat ->
    Forall is_bit A -> Forall is_bit v -> Forall is_bit B ->
    exists a bv bm cv cm,
      GF2.astype sup_unpacked (FieldArray GF2_cls (mk_ndarray [m; n] A) None)
        (cls GF2BP_cls) = Ok a /\
      GF2.astype sup_unpacked (FieldArray GF2_cls (mk_ndarray [n] v) None)
        (cls GF2BP_cls) = Ok bv /\
      GF2.astype sup_unpacked (FieldArray GF2_cls (mk_ndarray [n; p] B) None)
        (cls GF2BP_cls) = Ok bm /\
      _matmul GF2BP_cls [a; bv] = Ok cv /\
      GF2BP.astype sup_packed cv (cls GF2_cls)
      = Ok (FieldArray GF2_cls (matvec_mod2 m n A v) None) /\
      _matmul GF2BP_cls [a; bm] = Ok cm /\
      GF2BP.astype sup_packed cm (cls GF2_cls)
      = Ok (FieldArray GF2_cls (matmul_mod2 m n p A B) None).
Proof.
  intros sup1 sup2 m n p A v B HA Hv HB HbA Hbv HbB.
  exists (FieldArray GF2BP_cls (packed_last [m] n A) (Some [m; n])),
         (FieldArray GF2BP_cls (packed_last [] n v) (Some [n])),
         (FieldArray GF2BP_cls (packed_last [n] p B) (Some [n; p])),
         (FieldArray GF2BP_cls
            (packed_last [] m (data (matvec_mod2 m n A v))) (Some [m])),
         (FieldArray GF2BP_cls
            (packed_last [m] p (data (matmul_mod2 m n p A B))) (Some [m; p])).
  unfold GF2.astype. cbn [is_cls field_eqb].
  repeat split.
  - apply (GF2BP_new_packs _ [m] n A); try reflexivity; try assumption.
    cbn [size fold_right]. lia.
  - apply (GF2BP_new_packs _ [] n v); try reflexivity; try assumption.
    cbn [size fold_right]. lia.
  - apply (GF2BP_new_packs _ [n] p B); try reflexivity; try assumption.
    cbn [size fold_right]. lia.
  - now apply matmul_vector.
  - apply (GF2BP_astype_unpacks sup2 [] m (data (matvec_mod2 m n A v))).
    + cbn [matvec_mod2 data size fold_right]. rewrite length_map, length_seq. lia.
    + apply matvec_mod2_bits.
  - now apply matmul_matrix.
  - apply (GF2BP_astype_unpacks sup2 [m] p (data (matmul_mod2 m n p A B))).
    + cbn [matmul_mod2 data size fold_right]. rewrite grid_length. lia.
    + apply matmul_mod2_bits.
Qed.

Lemma C1_packed_matmul_witness :
  exists a bv bm cv cm,
    GF2.astype ndarray_astype (FieldArray GF2_cls ex_A None) (cls GF2BP_cls) = Ok a /\
    GF2.astype ndarray_astype (FieldArray GF2_cls ex_v None) (cls GF2BP_cls) = Ok bv /\
    GF2.astype ndarray_astype (FieldArray GF2_cls ex_B None) (cls GF2BP_cls) = Ok bm /\
    _matmul GF2BP_cls [a; bv] = Ok cv /\
    GF2BP.astype ndarray_astype cv (cls GF2_cls)
    = Ok (FieldArray GF2_cls (mk_ndarray [2%nat] [1; 1]) None) /\
    _matmul GF2BP_cls [a; bm] = Ok cm /\
    GF2BP.astype ndarray_astype cm (cls GF2_cls)
    = Ok (FieldArray GF2_cls (mk_ndarray [2; 2]%nat [0; 1; 1; 1]) None).
Proof.
  apply (C1_packed_matmul ndarray_astype ndarray_astype 2 3 2
           [1; 0; 1; 0; 1; 1] [1; 1; 0] [1; 1; 0; 1; 1; 0]);
    try reflexivity;
    unfold is_bit; repeat (constructor; [lia |]); constructor.
Defined.


(** * Further properties of the module *)

(** ** The scalar rules as field arithmetic *)

(** X1: the scalar rules are closed on the field: on operands in {0,1}, with
    any integer exponent, every rule that returns, returns 0 or 1. *)
Theorem scalar_rules_closed :
  forall a b e : Z, is_bit a -> is_bit b ->
    is_bit (np.bitwise_xor a b) /\
    is_bit (np.bitwise_and a b) /\
    is_bit (np.positive a) /\
    (forall r, reciprocal.calculate a = Ok r -> is_bit r) /\
    (forall r, divide.calculate a b = Ok r -> is_bit r) /\
    (forall r, power.calculate a e = Ok r -> is_bit r) /\
    (forall r, log.calculate a b = Ok r -> is_bit r).
Proof.
  intros a b e Ha Hb. unfold is_bit in *.
  repeat split.
  - destruct Ha as [-> | ->], Hb as [-> | ->]; cbn; auto.
  - destruct Ha as [-> | ->], Hb as [-> | ->]; cbn; auto.
  - exact Ha.
  - intros r. unfold reciprocal.calculate. destruct (a =? 0); intros [= <-]. auto.
  - intros r. unfold divide.calculate. destruct (b =? 0); intros [= <-].
    destruct Ha as [-> | ->], Hb as [-> | ->]; cbn; auto.
  - intros r. unfold power.calculate.
    destruct ((a =? 0) && (e <? 0)); [discriminate |].
    destruct (e =? 0); intros [= <-]; auto.
  - intros r. unfold log.calculate. destruct (a =? 0); [discriminate |].
    destruct (negb (b =? 1)); intros [= <-]. auto.
Qed.

Lemma scalar_rules_closed_witness :
  is_bit (np.bitwise_xor 1 1) /\ is_bit (np.bitwise_and 1 0).
Proof.
  pose proof (scalar_rules_closed 1 1 0 (or_intror eq_refl) (or_intror eq_refl))
    as (H1 & _).
  pose proof (scalar_rules_closed 1 0 0 (or_intror eq_refl) (or_introl eq_refl))
    as (_ & H2 & _).
  split; assumption.
Defined.

(** X2: division is multiplication by the reciprocal, failure included; a
    nonzero element times its reciprocal is 1; dividing a product by the
    nonzero factor gives the other factor back. *)
Theorem divide_is_multiply_by_reciprocal :
  forall a b : Z, is_bit a -> is_bit b ->
    divide.calculate a b
    = (r <- reciprocal.calculate b ;; Ok (np.bitwise_and a r)) /\
    (b <> 0 ->
     (r <- reciprocal.calculate b ;; Ok (np.bitwise_and b r)) = Ok 1) /\
    (b <> 0 -> divide.calculate (np.bitwise_and a b) b = Ok a).
Proof.
  intros a b Ha Hb.
  destruct Ha as [-> | ->], Hb as [-> | ->]; repeat split;
    try reflexivity; intros H; contradiction.
Qed.

Lemma divide_is_multiply_by_reciprocal_witness :
  divide.calculate 1 0
  = (r <- reciprocal.calculate 0 ;; Ok (np.bitwise_and 1 r)) /\
  divide.calculate (np.bitwise_and 1 1) 1 = Ok 1.
Proof.
  split.
  - apply (divide_is_multiply_by_reciprocal 1 0); [right | left]; reflexivity.
  - apply (divide_is_multiply_by_reciprocal 1 1); [right | right | lia];
      reflexivity.
Defined.

(** X3: exponent laws: for a in {0,1} and exponents m, n >= 0, power never
    fails and power(a, m+n) = power(a,m) * power(a,n); power(a,1) = a; a
    negative exponent is the reciprocal of the positive power, with the same
    failure for a = 0. *)
Theorem power_laws :
  forall a m n : Z, is_bit a -> 0 <= m -> 0 <= n ->
    power.calculate a (m + n)
    = (x <- power.calculate a m ;; y <- power.calculate a n ;;
       Ok (np.bitwise_and x y)) /\
    power.calculate a 1 = Ok a /\
    (0 < n ->
     power.calculate a (- n)
     = (x <- power.calculate a n ;; reciprocal.calculate x)).
Proof.
  intros a m n Ha Hm Hn. unfold power.calculate, reciprocal.calculate.
  destruct (Z.ltb_spec m 0), (Z.ltb_spec n 0), (Z.ltb_spec (m + n) 0); try lia.
  rewrite !andb_false_r. cbn [bind].
  repeat split.
  - destruct (Z.eqb_spec m 0), (Z.eqb_spec n 0), (Z.eqb_spec (m + n) 0);
      try lia; destruct Ha as [-> | ->]; reflexivity.
  - intros Hpos.
    destruct (Z.ltb_spec (- n) 0); [| lia].
    destruct (Z.eqb_spec n 0), (Z.eqb_spec (- n) 0); try lia.
    destruct Ha as [-> | ->]; reflexivity.
Qed.

Lemma power_laws_witness :
  power.calculate 0 (2 + 3)
  = (x <- power.calculate 0 2 ;; y <- power.calculate 0 3 ;;
     Ok (np.bitwise_and x y)) /\
  power.calculate 0 (- 3) = (x <- power.calculate 0 3 ;; reciprocal.calculate x).
Proof.
  pose proof (power_laws 0 2 3 (or_introl eq_refl) ltac:(lia) ltac:(lia))
    as (H1 & _ & H2).
  split; [exact H1 | apply H2; lia].
Defined.

(** X4: the logarithm inverts exponentiation: whenever log(a,b) returns k on
    operands in {0,1}, power(b,k) returns a. *)
Theorem power_of_log :
  forall a b k : Z, is_bit a -> is_bit b ->
    log.calculate a b = Ok k -> power.calculate b k = Ok a.
Proof.
  intros a b k Ha Hb.
  destruct Ha as [-> | ->], Hb as [-> | ->]; cbn; intros [= <-]. reflexivity.
Qed.

Lemma power_of_log_witness : power.calculate 1 0 = Ok 1.
Proof.
  apply (power_of_log 1 1 0); [right | right |]; reflexivity.
Defined.

(** ** Elementwise arithmetic on unpacked arrays *)

Lemma land_lxor_distr (a b c : Z) :
  Z.land a (Z.lxor b c) = Z.lxor (Z.land a b) (Z.land a c).
Proof.
  apply Z.bits_inj'. intros i _.
  rewrite Z.land_spec, !Z.lxor_spec, !Z.land_spec.
  destruct (Z.testbit a i), (Z.testbit b i), (Z.testbit c i); reflexivity.
Qed.

Lemma zip_with_lxor_cancel (d1 d2 : list Z) :
  length d1 = length d2 ->
  zip_with Z.lxor (zip_with Z.lxor d1 d2) d2 = d1.
Proof.
  revert d2. induction d1 as [| x d1 IH]; intros [| y d2] H; try discriminate H.
  - reflexivity.
  - cbn [zip_with]. injection H as H.
    now rewrite IH, Z.lxor_assoc, Z.lxor_nilpotent, Z.lxor_0_r.
Qed.

Lemma zip_with_lxor_comm (d1 d2 : list Z) :
  zip_with Z.lxor d1 d2 = zip_with Z.lxor d2 d1.
Proof.
  revert d2. induction d1 as [| x d1 IH]; intros [| y d2]; cbn [zip_with];
    try reflexivity.
  now rewrite IH, Z.lxor_comm.
Qed.

Lemma zip_with_lxor_self (d : list Z) :
  zip_with Z.lxor d d = repeat 0 (length d).
Proof.
  induction d as [| x d IH]; cbn [zip_with length repeat]; [reflexivity |].
  now rewrite IH, Z.lxor_nilpotent.
Qed.

Lemma zip_with_land_lxor_distr (d1 d2 d3 : list Z) :
  zip_with Z.land d1 (zip_with Z.lxor d2 d3)
  = zip_with Z.lxor (zip_with Z.land d1 d2) (zip_with Z.land d1 d3).
Proof.
  revert d2 d3.
  induction d1 as [| x d1 IH]; intros [| y d2] [| z d3]; cbn [zip_with];
    try reflexivity.
  now rewrite IH, land_lxor_distr.
Qed.

Lemma zip_with_land_self (d : list Z) :
  Forall is_bit d -> zip_with Z.land d d = d.
Proof.
  induction 1 as [| x d Hx _ IH]; cbn [zip_with]; [reflexivity |].
  now rewrite IH, Z.land_diag.
Qed.

Lemma length_zip_same (f : Z -> Z -> Z) (n : nat) (d1 d2 : list Z) :
  length d1 = n -> length d2 = n -> length (zip_with f d1 d2) = n.
Proof. intros H1 H2. rewrite length_zip_with, H1, H2. lia. Qed.

Ltac unfold_unpacked_table :=
  cbn [_add _subtract _multiply _negative _sqrt UFuncMixin_2_1];
  unfold add_ufunc.__call__, subtract_ufunc.__call__, multiply_ufunc.__call__,
    negative_ufunc.__call__, Base.override_ufunc, Base.override_ufunc_or_int,
    Base.override_unary_ufunc, Base.binary_call, Base.binary_call_with,
    Base.unary_call, sqrt.__call__, sqrt.implementation,
    Base._view, np.bitwise_xor, np.bitwise_and;
  cbn [Base.view_input Base.view_input_or_int Base.copy bind].

(** X5: on arrays of one shape, addition is commutative, an array added to
    itself is the zero array, and subtracting an operand from a sum returns
    the other operand. *)
Theorem add_subtract_laws :
  forall (c : field) (s : list nat) (dx dy : list Z)
         (ax ay : option (list nat)),
    length dx = size s -> length dy = size s ->
    let T := UFuncMixin_2_1 c in
    let x := FieldArray c (mk_ndarray s dx) ax in
    let y := FieldArray c (mk_ndarray s dy) ay in
    _add T [x; y] = _add T [y; x] /\
    _add T [x; x] = Ok (Base.Zeros c s) /\
    (r <- _add T [x; y] ;; _subtract T [r; y])
    = Ok (FieldArray c (mk_ndarray s dx) None).
Proof.
  intros c s dx dy ax ay Hx Hy T x y. subst T x y. unfold_unpacked_table.
  rewrite !binary_ufunc_same_shape by assumption.
  cbn [bind Base.view_input Base.view_input_or_int].
  rewrite binary_ufunc_same_shape by (assumption || now apply length_zip_same).
  cbn [bind]. repeat split.
  - now rewrite zip_with_lxor_comm.
  - unfold Base.Zeros, Base._view, np.zeros.
    now rewrite zip_with_lxor_self, Hx.
  - now rewrite zip_with_lxor_cancel by congruence.
Qed.

Lemma add_subtract_laws_witness :
  (r <- _add (UFuncMixin_2_1 GF2_cls)
          [FieldArray GF2_cls ex_x None; FieldArray GF2_cls ex_v4 None] ;;
   _subtract (UFuncMixin_2_1 GF2_cls) [r; FieldArray GF2_cls ex_v4 None])
  = Ok (FieldArray GF2_cls ex_x None).
Proof.
  apply (add_subtract_laws GF2_cls [4%nat] [1; 0; 1; 1] [1; 1; 0; 1] None None);
    reflexivity.
Defined.

(** X6: on arrays of one shape, multiplication distributes over addition:
    x * (y + z) and x * y + x * z are computed to the same array. *)
Theorem multiply_distributes_over_add :
  forall (c : field) (s : list nat) (dx dy dz : list Z)
         (ax ay az : option (list nat)),
    length dx = size s -> length dy = size s -> length dz = size s ->
    let T := UFuncMixin_2_1 c in
    let x := FieldArray c (mk_ndarray s dx) ax in
    let y := FieldArray c (mk_ndarray s dy) ay in
    let z := FieldArray c (mk_ndarray s dz) az in
    (r <- _add T [y; z] ;; _multiply T [x; r])
    = (p <- _multiply T [x; y] ;; q <- _multiply T [x; z] ;; _add T [p; q]) /\
    exists d, (r <- _add T [y; z] ;; _multiply T [x; r])
              = Ok (FieldArray c (mk_ndarray s d) None).
Proof.
  intros c s dx dy dz ax ay az Hx Hy Hz T x y z. subst T x y z.
  unfold_unpacked_table.
  rewrite !binary_ufunc_same_shape by assumption.
  cbn [bind Base.view_input Base.view_input_or_int].
  rewrite !binary_ufunc_same_shape by (assumption || now apply length_zip_same).
  cbn [bind]. rewrite zip_with_land_lxor_distr. split; [reflexivity | eauto].
Qed.

Lemma multiply_distributes_over_add_witness :
  (r <- _add (UFuncMixin_2_1 GF2_cls)
          [FieldArray GF2_cls ex_v4 None; FieldArray GF2_cls ex_x None] ;;
   _multiply (UFuncMixin_2_1 GF2_cls) [FieldArray GF2_cls ex_x None; r])
  = (p <- _multiply (UFuncMixin_2_1 GF2_cls)
            [FieldArray GF2_cls ex_x None; FieldArray GF2_cls ex_v4 None] ;;
     q <- _multiply (UFuncMixin_2_1 GF2_cls)
            [FieldArray GF2_cls ex_x None; FieldArray GF2_cls ex_x None] ;;
     _add (UFuncMixin_2_1 GF2_cls) [p; q]).
Proof.
  apply (multiply_distributes_over_add GF2_cls [4%nat]
           [1; 0; 1; 1] [1; 1; 0; 1] [1; 0; 1; 1] None None None);
    reflexivity.
Defined.

(** X7: the square root squares back: on an array with elements in {0,1},
    sqrt(x) * sqrt(x) is x. *)
Theorem sqrt_squares_back :
  forall (c : field) (s : list nat) (dx : list Z) (ax : option (list nat)),
    length dx = size s -> Forall is_bit dx ->
    let T := UFuncMixin_2_1 c in
    (r <- _sqrt T [FieldArray c (mk_ndarray s dx) ax] ;; _multiply T [r; r])
    = Ok (FieldArray c (mk_ndarray s dx) None).
Proof.
  intros c s dx ax Hx Hb T. subst T. unfold_unpacked_table.
  rewrite binary_ufunc_same_shape by assumption. cbn [bind].
  now rewrite zip_with_land_self.
Qed.

Lemma sqrt_squares_back_witness :
  (r <- _sqrt (UFuncMixin_2_1 GF2_cls) [FieldArray GF2_cls ex_x None] ;;
   _multiply (UFuncMixin_2_1 GF2_cls) [r; r])
  = Ok (FieldArray GF2_cls ex_x None).
Proof.
  apply (sqrt_squares_back GF2_cls [4%nat] [1; 0; 1; 1] None); [reflexivity |].
  unfold is_bit. repeat (constructor; [lia |]). constructor.
Defined.

(** ** Elementwise arithmetic on packed arrays *)

Lemma byte_of_bits (z : Z) :
  0 <= z < 256 ->
  np.pack8 (np.unpack8 z) = z.
Proof.
  intros Hz.
  assert (Hall : forallb (fun n => np.pack8 (np.unpack8 (Z.of_nat n)) =? Z.of_nat n)
                   (seq 0 256) = true) by (vm_compute; reflexivity).
  rewrite forallb_forall in Hall.
  specialize (Hall (Z.to_nat z)).
  rewrite Z2Nat.id in Hall by lia.
  apply Z.eqb_eq, Hall, in_seq. lia.
Qed.

Lemma app_eq_length (l1 l2 r1 r2 : list Z) :
  length l1 = length l2 -> l1 ++ r1 = l2 ++ r2 -> l1 = l2 /\ r1 = r2.
Proof.
  revert l2. induction l1 as [| x l1 IH]; intros [| y l2] Hlen H;
    try discriminate Hlen.
  - now split.
  - cbn [app] in H. injection H as -> H. injection Hlen as Hlen.
    destruct (IH l2 Hlen H) as [-> ->]. now split.
Qed.

(** Bytes are determined by their bits. *)
Lemma bytes_of_bits_unique (xs ys : list Z) :
  Forall (fun z => 0 <= z < 256) xs -> Forall (fun z => 0 <= z < 256) ys ->
  flat_map np.unpack8 xs = flat_map np.unpack8 ys -> xs = ys.
Proof.
  intros Hx. revert ys. induction Hx as [| x xs Hx _ IH]; intros ys Hy H.
  - destruct Hy as [| y ys Hy _]; [reflexivity | discriminate H].
  - destruct Hy as [| y ys Hy Hys]; [discriminate H |].
    cbn [flat_map] in H.
    apply app_eq_length in H; [| reflexivity].
    destruct H as [Hh Ht].
    f_equal; [| now apply IH].
    rewrite <- (byte_of_bits x Hx), <- (byte_of_bits y Hy). now rewrite Hh.
Qed.

Lemma lxor_shiftr_one (x y k : Z) :
  Z.land (Z.shiftr (Z.lxor x y) k) 1
  = Z.lxor (Z.land (Z.shiftr x k) 1) (Z.land (Z.shiftr y k) 1).
Proof.
  rewrite Z.shiftr_lxor, (Z.land_comm _ 1), land_lxor_distr.
  now rewrite !(Z.land_comm 1).
Qed.

Lemma unpack8_lxor (x y : Z) :
  np.unpack8 (Z.lxor x y) = zip_with Z.lxor (np.unpack8 x) (np.unpack8 y).
Proof.
  unfold np.unpack8. cbn [seq map zip_with].
  now rewrite !lxor_shiftr_one.
Qed.

Lemma lxor_byte (x y : Z) : 0 <= x < 256 -> 0 <= y < 256 -> 0 <= Z.lxor x y < 256.
Proof.
  intros Hx Hy.
  rewrite <- (Z.mod_small x 256), <- (Z.mod_small y 256) by assumption.
  change 256 with (2 ^ 8). rewrite <- !Z.land_ones by lia.
  rewrite !(Z.land_comm _ (Z.ones 8)), <- land_lxor_distr, Z.land_comm.
  rewrite Z.land_ones by lia. apply Z.mod_pos_bound. lia.
Qed.

Section PackedElementwise.
Variable f : Z -> Z -> Z.
Hypothesis f_bits : forall a b, is_bit a -> is_bit b -> is_bit (f a b).
Hypothesis f_zero : f 0 0 = 0.
Hypothesis f_unpack8 :
  forall x y, np.unpack8 (f x y) = zip_with f (np.unpack8 x) (np.unpack8 y).
Hypothesis f_byte :
  forall x y, 0 <= x < 256 -> 0 <= y < 256 -> 0 <= f x y < 256.

Lemma zip_with_bits (u w : list Z) :
  Forall is_bit u -> Forall is_bit w -> Forall is_bit (zip_with f u w).
Proof.
  intros Hu. revert w. induction Hu as [| x u Hx _ IH]; intros w Hw.
  - constructor.
  - destruct Hw as [| y w Hy Hw]; cbn [zip_with]; constructor; auto.
Qed.

Lemma zip_with_bytes (xs ys : list Z) :
  Forall (fun z => 0 <= z < 256) xs -> Forall (fun z => 0 <= z < 256) ys ->
  Forall (fun z => 0 <= z < 256) (zip_with f xs ys).
Proof.
  intros Hx. revert ys. induction Hx as [| x xs Hx _ IH]; intros ys Hy.
  - constructor.
  - destruct Hy as [| y ys Hy Hys]; cbn [zip_with]; constructor; auto.
Qed.

Lemma zip_with_zeros (n : nat) : zip_with f (repeat 0 n) (repeat 0 n) = repeat 0 n.
Proof. induction n as [| n IH]; cbn; [reflexivity | now rewrite IH, f_zero]. Qed.

Lemma bits_zip_with (xs ys : list Z) :
  length xs = length ys ->
  flat_map np.unpack8 (zip_with f xs ys)
  = zip_with f (flat_map np.unpack8 xs) (flat_map np.unpack8 ys).
Proof.
  revert ys. induction xs as [| x xs IH]; intros [| y ys] H; try discriminate H.
  - reflexivity.
  - cbn [zip_with flat_map]. injection H as H.
    rewrite zip_with_app by reflexivity. now rewrite f_unpack8, IH.
Qed.

(** Packing commutes with an elementwise operation on slices of bits. *)
Lemma packbits_1d_zip_with (u w : list Z) :
  length u = length w -> Forall is_bit u -> Forall is_bit w ->
  zip_with f (np.packbits_1d u) (np.packbits_1d w)
  = np.packbits_1d (zip_with f u w).
Proof.
  intros Hlen Hu Hw. apply bytes_of_bits_unique.
  - apply zip_with_bytes; apply packbits_1d_bytes.
  - apply packbits_1d_bytes.
  - rewrite bits_zip_with by (now rewrite !length_packbits_1d, Hlen).
    rewrite !bits_packbits_1d.
    rewrite !map_nonzero_bits by (assumption || now apply zip_with_bits).
    rewrite zip_with_app by assumption.
    rewrite length_zip_with, <- Hlen, Nat.min_id.
    now rewrite zip_with_zeros.
Qed.

Lemma firstn_zip_with (k : nat) (u w : list Z) :
  firstn k (zip_with f u w) = zip_with f (firstn k u) (firstn k w).
Proof.
  revert u w. induction k as [| k IH]; intros [| x u] [| y w];
    cbn [firstn zip_with]; try reflexivity.
  now rewrite IH.
Qed.

Lemma skipn_zip_with (k : nat) (u w : list Z) :
  skipn k (zip_with f u w) = zip_with f (skipn k u) (skipn k w).
Proof.
  revert u w. induction k as [| k IH]; intros [| x u] [| y w];
    cbn [skipn zip_with]; try reflexivity.
  - now destruct (skipn k u).
  - apply IH.
Qed.

Lemma zip_with_flat_map (g h : nat -> list Z) (l : list nat) :
  (forall o, In o l -> length (g o) = length (h o)) ->
  zip_with f (flat_map g l) (flat_map h l)
  = flat_map (fun o => zip_with f (g o) (h o)) l.
Proof.
  induction l as [| o l IH]; intros H; cbn [flat_map]; [reflexivity |].
  rewrite zip_with_app by (apply H; now left).
  rewrite IH by (intros; apply H; now right). reflexivity.
Qed.

(** The operation on two packed storages is the packed storage of the
    operation on the elements. *)
Lemma packed_data_zip_with (pre : list nat) (n : nat) (dx dy : list Z) :
  length dx = (size pre * n)%nat -> length dy = (size pre * n)%nat ->
  Forall is_bit dx -> Forall is_bit dy ->
  zip_with f (data (packed_last pre n dx)) (data (packed_last pre n dy))
  = data (packed_last pre n (zip_with f dx dy)).
Proof.
  intros Hx Hy Hbx Hby. cbn [packed_last data]. rewrite zip_with_flat_map.
  - apply flat_map_ext_in. intros o Ho. apply in_seq in Ho.
    rewrite skipn_zip_with, firstn_zip_with.
    apply packbits_1d_zip_with.
    + now rewrite !length_row by nia.
    + now apply Forall_row.
    + now apply Forall_row.
  - intros o Ho. apply in_seq in Ho.
    now rewrite !length_packbits_1d, !length_row by nia.
Qed.

Lemma length_packed_data (pre : list nat) (n : nat) (d : list Z) :
  length d = (size pre * n)%nat ->
  length (data (packed_last pre n d)) = size (pre ++ [np.cdiv8 n]).
Proof.
  intros Hd. cbn [packed_last data]. rewrite size_last. apply length_rows.
  intros r Hr. now rewrite length_packbits_1d, length_row by nia.
Qed.

Lemma packed_last_zip_with (pre : list nat) (n : nat) (dx dy : list Z) :
  length dx = (size pre * n)%nat -> length dy = (size pre * n)%nat ->
  Forall is_bit dx -> Forall is_bit dy ->
  np.binary_ufunc f (packed_last pre n dx) (packed_last pre n dy)
  = Ok (packed_last pre n (zip_with f dx dy)).
Proof.
  intros Hx Hy Hbx Hby.
  change (packed_last pre n dx)
    with (mk_ndarray (pre ++ [np.cdiv8 n]) (data (packed_last pre n dx))).
  change (packed_last pre n dy)
    with (mk_ndarray (pre ++ [np.cdiv8 n]) (data (packed_last pre n dy))).
  rewrite binary_ufunc_same_shape by now apply length_packed_data.
  now rewrite packed_data_zip_with.
Qed.

End PackedElementwise.

Lemma lxor_is_bit (a b : Z) : is_bit a -> is_bit b -> is_bit (Z.lxor a b).
Proof. intros [-> | ->] [-> | ->]; cbn; unfold is_bit; auto. Qed.

Lemma land_is_bit (a b : Z) : is_bit a -> is_bit b -> is_bit (Z.land a b).
Proof. intros [-> | ->] [-> | ->]; cbn; unfold is_bit; auto. Qed.

Lemma land_bytes (x y : Z) : 0 <= x < 256 -> 0 <= y < 256 -> 0 <= Z.land x y < 256.
Proof. intros Hx _. now apply land_byte. Qed.

Ltac unfold_packed_table :=
  cbn [_add _subtract _multiply _divide UFuncMixin_2_1_BitPacked];
  unfold add_ufunc_bitpacked.__call__, subtract_ufunc_bitpacked.__call__,
    multiply_ufunc_bitpacked.__call__, divide_ufunc_bitpacked.__call__,
    add_ufunc.__call__, subtract_ufunc.__call__, multiply_ufunc.__call__,
    Base.override_ufunc, Base.override_ufunc_or_int, Base.calculate_ufunc,
    Base.binary_call, Base.binary_call_with, Base._view,
    np.bitwise_xor, np.bitwise_and;
  cbn [Base.view_input Base.view_input_or_int bind first_input
    get_unpacked_shape].

(** X8: packed addition and subtraction are the addition of the elements:
    for two 0/1 arrays of one shape, adding (or subtracting) their packed
    forms gives the packed form of the elementwise XOR, which unpacks to it. *)
Theorem packed_add_is_elementwise_xor :
  forall (sup_unpacked sup_packed : pyvalue -> pytype -> result pyvalue)
         (parent_divide : ndarray -> ndarray -> result ndarray)
         (pre : list nat) (n : nat) (dx dy : list Z),
    length dx = (size pre * n)%nat -> length dy = (size pre * n)%nat ->
    Forall is_bit dx -> Forall is_bit dy ->
    let T := UFuncMixin_2_1_BitPacked GF2BP_cls parent_divide in
    let pack d :=
      GF2.astype sup_unpacked
        (FieldArray GF2_cls (mk_ndarray (pre ++ [n]) d) None) (cls GF2BP_cls) in
    exists px py pz,
      pack dx = Ok px /\ pack dy = Ok py /\
      _add T [px; py] = Ok pz /\
      _subtract T [px; py] = Ok pz /\
      pack (zip_with Z.lxor dx dy) = Ok pz /\
      GF2BP.astype sup_packed pz (cls GF2_cls)
      = Ok (FieldArray GF2_cls (mk_ndarray (pre ++ [n]) (zip_with Z.lxor dx dy))
              None).
Proof.
  intros sup1 sup2 parent_divide pre n dx dy Hx Hy Hbx Hby T pack.
  subst T pack.
  exists (FieldArray GF2BP_cls (packed_last pre n dx) (Some (pre ++ [n]))),
         (FieldArray GF2BP_cls (packed_last pre n dy) (Some (pre ++ [n]))),
         (FieldArray GF2BP_cls (packed_last pre n (zip_with Z.lxor dx dy))
            (Some (pre ++ [n]))).
  assert (Hz : length (zip_with Z.lxor dx dy) = (size pre * n)%nat)
    by now apply length_zip_same.
  assert (Hbz : Forall is_bit (zip_with Z.lxor dx dy))
    by (apply zip_with_bits; auto using lxor_is_bit).
  unfold GF2.astype. cbn [is_cls field_eqb].
  split; [now apply GF2BP_new_packs |].
  split; [now apply GF2BP_new_packs |].
  unfold_packed_table.
  rewrite (packed_last_zip_with Z.lxor lxor_is_bit eq_refl unpack8_lxor lxor_byte)
    by assumption.
  cbn [bind set_unpacked_shape].
  repeat split; try reflexivity.
  - now apply GF2BP_new_packs.
  - now apply GF2BP_astype_unpacks.
Qed.

Lemma packed_add_is_elementwise_xor_witness :
  exists px py pz,
    GF2.astype ndarray_astype (FieldArray GF2_cls ex_x None) (cls GF2BP_cls) = Ok px /\
    GF2.astype ndarray_astype (FieldArray GF2_cls ex_v4 None) (cls GF2BP_cls) = Ok py /\
    _add (UFuncMixin_2_1_BitPacked GF2BP_cls vectorised_divide) [px; py]
    = Ok pz /\
    _subtract (UFuncMixin_2_1_BitPacked GF2BP_cls vectorised_divide) [px; py]
    = Ok pz /\
    GF2.astype ndarray_astype
      (FieldArray GF2_cls (mk_ndarray [4%nat] [0; 1; 1; 0]) None) (cls GF2BP_cls)
    = Ok pz /\
    GF2BP.astype ndarray_astype pz (cls GF2_cls)
    = Ok (FieldArray GF2_cls (mk_ndarray [4%nat] [0; 1; 1; 0]) None).
Proof.
  apply (packed_add_is_elementwise_xor ndarray_astype ndarray_astype
           vectorised_divide [] 4 [1; 0; 1; 1] [1; 1; 0; 1]);
    try reflexivity;
    unfold is_bit; repeat (constructor; [lia |]); constructor.
Defined.

(** X9: packed multiplication is the multiplication of the elements: for two
    0/1 arrays of one shape, multiplying their packed forms gives the packed
    form of the elementwise AND, which unpacks to it. *)
Theorem packed_multiply_is_elementwise_and :
  forall (sup_unpacked sup_packed : pyvalue -> pytype -> result pyvalue)
         (parent_divide : ndarray -> ndarray -> result ndarray)
         (pre : list nat) (n : nat) (dx dy : list Z),
    length dx = (size pre * n)%nat -> length dy = (size pre * n)%nat ->
    Forall is_bit dx -> Forall is_bit dy ->
    let T := UFuncMixin_2_1_BitPacked GF2BP_cls parent_divide in
    let pack d :=
      GF2.astype sup_unpacked
        (FieldArray GF2_cls (mk_ndarray (pre ++ [n]) d) None) (cls GF2BP_cls) in
    exists px py pz,
      pack dx = Ok px /\ pack dy = Ok py /\
      _multiply T [px; py] = Ok pz /\
      pack (zip_with Z.land dx dy) = Ok pz /\
      GF2BP.astype sup_packed pz (cls GF2_cls)
      = Ok (FieldArray GF2_cls (mk_ndarray (pre ++ [n]) (zip_with Z.land dx dy))
              None).
Proof.
  intros sup1 sup2 parent_divide pre n dx dy Hx Hy Hbx Hby T pack.
  subst T pack.
  exists (FieldArray GF2BP_cls (packed_last pre n dx) (Some (pre ++ [n]))),
         (FieldArray GF2BP_cls (packed_last pre n dy) (Some (pre ++ [n]))),
         (FieldArray GF2BP_cls (packed_last pre n (zip_with Z.land dx dy))
            (Some (pre ++ [n]))).
  assert (Hz : length (zip_with Z.land dx dy) = (size pre * n)%nat)
    by now apply length_zip_same.
  assert (Hbz : Forall is_bit (zip_with Z.land dx dy))
    by (apply zip_with_bits; auto using land_is_bit).
  unfold GF2.astype. cbn [is_cls field_eqb].
  split; [now apply GF2BP_new_packs |].
  split; [now apply GF2BP_new_packs |].
  unfold_packed_table.
  rewrite (packed_last_zip_with Z.land land_is_bit eq_refl unpack8_land land_bytes)
    by assumption.
  cbn [bind set_unpacked_shape].
  repeat split; try reflexivity.
  - now apply GF2BP_new_packs.
  - now apply GF2BP_astype_unpacks.
Qed.

Lemma packed_multiply_is_elementwise_and_witness :
  exists px py pz,
    GF2.astype ndarray_astype (FieldArray GF2_cls ex_x None) (cls GF2BP_cls) = Ok px /\
    GF2.astype ndarray_astype (FieldArray GF2_cls ex_v4 None) (cls GF2BP_cls) = Ok py /\
    _multiply (UFuncMixin_2_1_BitPacked GF2BP_cls vectorised_divide) [px; py]
    = Ok pz /\
    GF2.astype ndarray_astype
      (FieldArray GF2_cls (mk_ndarray [4%nat] [1; 0; 0; 1]) None) (cls GF2BP_cls)
    = Ok pz /\
    GF2BP.astype ndarray_astype pz (cls GF2_cls)
    = Ok (FieldArray GF2_cls (mk_ndarray [4%nat] [1; 0; 0; 1]) None).
Proof.
  apply (packed_multiply_is_elementwise_and ndarray_astype ndarray_astype
           vectorised_divide [] 4 [1; 0; 1; 1] [1; 1; 0; 1]);
    try reflexivity;
    unfold is_bit; repeat (constructor; [lia |]); constructor.
Defined.

(** ** The packed storage *)

(** X11: the storage built by the packed constructor.  For a 0/1 array of
    shape s ++ [n] the storage has shape s ++ [ceil(n/8)], holds one byte
    (0..255) per entry, the logical shape is recorded as it was, and the
    bits of every storage row are the elements of the row followed by zeros
    only: the padding bits are never set. *)
Theorem packed_storage_invariants :
  forall (pre : list nat) (n : nat) (d : list Z) (attr : option (list nat)),
    length d = (size pre * n)%nat -> Forall is_bit d ->
    exists st,
      GF2BP.__new__ (FieldArray GF2_cls (mk_ndarray (pre ++ [n]) d) attr) 0
      = Ok (FieldArray GF2BP_cls st (Some (pre ++ [n]))) /\
      shape st = pre ++ [np.cdiv8 n] /\
      well_formed st /\
      Forall (fun z => 0 <= z < 256) (data st) /\
      np.unpackbits st (-1) None
      = Ok (mk_ndarray (pre ++ [8 * np.cdiv8 n])%nat
              (flat_map (fun o => firstn n (skipn (o * n) d)
                                  ++ repeat 0 (8 * np.cdiv8 n - n))
                 (seq 0 (size pre)))).
Proof.
  intros pre n d attr Hd Hb. exists (packed_last pre n d).
  assert (Hrow : forall r, (r < size pre)%nat ->
            length (np.packbits_1d (firstn n (skipn (r * n) d))) = np.cdiv8 n).
  { intros r Hr. now rewrite length_packbits_1d, length_row by nia. }
  split; [now apply GF2BP_new_packs |].
  split; [reflexivity |].
  split; [| split].
  - unfold well_formed. cbn [packed_last shape data]. rewrite size_last.
    now apply length_rows.
  - cbn [packed_last data]. apply Forall_flat_map, Forall_forall.
    intros o _. apply packbits_1d_bytes.
  - unfold packed_last. rewrite unpackbits_last_all by now apply length_rows.
    do 2 f_equal. apply flat_map_ext_in. intros o Ho. apply in_seq in Ho.
    rewrite row_of_rows by (assumption || lia).
    rewrite bits_packbits_1d, length_row by nia.
    rewrite map_nonzero_bits by now apply Forall_row. reflexivity.
Qed.

Lemma packed_storage_invariants_witness :
  exists st,
    GF2BP.__new__ (FieldArray GF2_cls ex_A None) 0
    = Ok (FieldArray GF2BP_cls st (Some [2; 3]%nat)) /\
    shape st = [2; 1]%nat /\
    well_formed st /\
    Forall (fun z => 0 <= z < 256) (data st) /\
    np.unpackbits st (-1) None
    = Ok (mk_ndarray [2; 8]%nat
            [1; 0; 1; 0; 0; 0; 0; 0; 0; 1; 1; 0; 0; 0; 0; 0]).
Proof.
  apply (packed_storage_invariants [2%nat] 3 [1; 0; 1; 0; 1; 1] None);
    [reflexivity |].
  unfold is_bit. repeat (constructor; [lia |]). constructor.
Defined.

(** ** Operands without a logical shape *)

Lemma broadcast_shapes_scalar (s : list nat) : np.broadcast_shapes [] s = Some s.
Proof.
  unfold np.broadcast_shapes. cbn [rev np.broadcast_shapes_rev option_map].
  now rewrite rev_involutive.
Qed.

(** X12: scalar multiplication of a packed array by a Python integer: with
    the integer in first position the storage is combined with it, and then
    the dispatcher fails with AttributeError, since the integer has no
    logical shape to hand on; with the integer in second position the
    multiplication returns, with the logical shape of the packed operand. *)
Theorem packed_scalar_first_fails :
  forall (c : field) (parent_divide : ndarray -> ndarray -> result ndarray)
         (z : Z) (bytes : ndarray) (s : list nat),
    let T := UFuncMixin_2_1_BitPacked c parent_divide in
    let y := FieldArray c bytes (Some s) in
    _multiply T [PyInt z; y] = Raise AttributeError /\
    exists o, _multiply T [y; PyInt z] = Ok (FieldArray c o (Some s)) /\
              shape o = shape bytes.
Proof.
  intros c parent_divide z bytes s T y. subst T y.
  assert (Hs : np.broadcast_shapes (shape bytes) [] = Some (shape bytes)).
  { unfold np.broadcast_shapes. cbn [rev].
    destruct (rev (shape bytes)) eqn:E; cbn [np.broadcast_shapes_rev option_map];
      rewrite <- E, rev_involutive; reflexivity. }
  unfold_packed_table. unfold np.binary_ufunc. cbn [shape].
  rewrite broadcast_shapes_scalar, Hs. cbn [bind set_unpacked_shape].
  split; [reflexivity | eexists; split; reflexivity].
Qed.

Lemma packed_scalar_first_fails_witness :
  _multiply (UFuncMixin_2_1_BitPacked GF2BP_cls vectorised_divide)
    [PyInt 1; FieldArray GF2BP_cls (mk_ndarray [1%nat] [176]) (Some [4%nat])]
  = Raise AttributeError /\
  _multiply (UFuncMixin_2_1_BitPacked GF2BP_cls vectorised_divide)
    [FieldArray GF2BP_cls (mk_ndarray [1%nat] [176]) (Some [4%nat]); PyInt 0]
  = Ok (FieldArray GF2BP_cls (mk_ndarray [1%nat] [0]) (Some [4%nat])).
Proof.
  destruct (packed_scalar_first_fails GF2BP_cls vectorised_divide 1
              (mk_ndarray [1%nat] [176]) [4%nat]) as [H1 _].
  split; [exact H1 | reflexivity].
Defined.

(** ** The dimension check of the packed matrix product *)

Lemma repack_vector (nb : nat) (v : list Z) :
  length v = nb ->
  exists d,
    np.unpackbits (packed_last [] nb v) (-1) (Some (Z.of_nat nb))
    = Ok (mk_ndarray [nb] d) /\
    np.packbits (mk_ndarray [nb] d) 0 = Ok (packed_last [] nb d).
Proof.
  intros Hv. eexists. split.
  - unfold packed_last at 1. rewrite unpackbits_last; [reflexivity |].
    apply length_rows. intros r Hr.
    rewrite length_packbits_1d, length_row; [reflexivity |].
    cbn [size fold_right] in Hr. nia.
  - apply packbits_axis0_vector. cbn [size fold_right seq flat_map].
    now rewrite app_nil_r, length_unpackbits_1d.
Qed.

Lemma repack_matrix (nb p : nat) (B : list Z) :
  length B = (nb * p)%nat ->
  exists d,
    np.unpackbits (packed_last [nb] p B) (-1) (Some (Z.of_nat p))
    = Ok (mk_ndarray [nb; p] d) /\
    np.packbits (mk_ndarray [nb; p] d) 0
    = Ok (mk_ndarray [np.cdiv8 nb; p]
            (np.grid (np.cdiv8 nb) p
               (fun k j => nth k (np.packbits_1d (matrix_col nb p d j)) 0))).
Proof.
  intros HB. eexists. split.
  - unfold packed_last at 1. rewrite unpackbits_last; [reflexivity |].
    apply length_rows. intros r Hr.
    rewrite length_packbits_1d, length_row; [reflexivity |].
    cbn [size fold_right] in Hr. nia.
  - apply packbits_axis0_matrix.
Qed.

(** X13: the dimension check of the packed product compares storage: when
    the inner logical lengths na and nb need different numbers of bytes
    (ceil(na/8) <> ceil(nb/8)), the product of properly packed operands
    raises AssertionError, for a vector and for a matrix as second operand. *)
Theorem matmul_rejects_storage_mismatch :
  forall (m na nb p : nat) (A v B : list Z),
    length A = (m * na)%nat -> length v = nb -> length B = (nb * p)%nat ->
    np.cdiv8 na <> np.cdiv8 nb ->
    _matmul GF2BP_cls
      [FieldArray GF2BP_cls (packed_last [m] na A) (Some [m; na]);
       FieldArray GF2BP_cls (packed_last [] nb v) (Some [nb])]
    = Raise AssertionError /\
    _matmul GF2BP_cls
      [FieldArray GF2BP_cls (packed_last [m] na A) (Some [m; na]);
       FieldArray GF2BP_cls (packed_last [nb] p B) (Some [nb; p])]
    = Raise AssertionError.
Proof.
  intros m na nb p A v B HA Hv HB Hne.
  destruct (repack_vector nb v Hv) as (dv & Huv & Hpv).
  destruct (repack_matrix nb p B HB) as (dB & HuB & HpB).
  unfold _matmul, matmul_ufunc_bitpacked.__call__.
  cbn [isinstance field_eqb andb assert bind get_unpacked_shape view_ndarray
    getitem_last last].
  rewrite Huv, HuB. cbn [bind]. rewrite Hpv, HpB. cbn [bind].
  rewrite packed_last_matrix.
  cbn [packed_last app shape getitem_last getitem_first last bind].
  destruct (Nat.eqb_spec (np.cdiv8 na) (np.cdiv8 nb)); [contradiction |].
  split; reflexivity.
Qed.

Lemma matmul_rejects_storage_mismatch_witness :
  _matmul GF2BP_cls
    [FieldArray GF2BP_cls (mk_ndarray [2; 1]%nat [160; 96]) (Some [2; 3]%nat);
     FieldArray GF2BP_cls (mk_ndarray [2%nat] [255; 128]) (Some [9%nat])]
  = Raise AssertionError.
Proof.
  apply (matmul_rejects_storage_mismatch 2 3 9 0
           [1; 0; 1; 0; 1; 1] [1; 1; 1; 1; 1; 1; 1; 1; 1] []
           eq_refl eq_refl eq_refl).
  discriminate.
Defined.

Lemma sum_zip_land_zeros_l (a : nat) (l : list Z) :
  sum (zip_with Z.land (repeat 0 a) l) = 0.
Proof.
  revert l. induction a as [| a IH]; intros [| y l]; cbn [repeat zip_with];
    try reflexivity.
  cbn [sum fold_right]. fold (sum (zip_with Z.land (repeat 0 a) l)).
  now rewrite IH, Z.land_0_l.
Qed.

Lemma sum_zip_land_zeros_r (b : nat) (l : list Z) :
  sum (zip_with Z.land l (repeat 0 b)) = 0.
Proof.
  revert l. induction b as [| b IH]; intros [| x l]; cbn [repeat zip_with];
    try reflexivity.
  cbn [sum fold_right]. fold (sum (zip_with Z.land l (repeat 0 b))).
  now rewrite IH, Z.land_0_r.
Qed.

(** Zero padding on either side adds nothing to the sum of the AND. *)
Lemma sum_zip_land_padded (u w : list Z) (a b : nat) :
  Forall is_bit u -> Forall is_bit w ->
  sum (zip_with Z.land (u ++ repeat 0 a) (w ++ repeat 0 b)) = dot u w.
Proof.
  intros Hu. revert w. induction Hu as [| x u Hx _ IH]; intros w Hw.
  - cbn [app]. now rewrite sum_zip_land_zeros_l.
  - destruct Hw as [| y w Hy Hw].
    + cbn [app]. change (x :: u ++ repeat 0 a) with ((x :: u) ++ repeat 0 a).
      now rewrite sum_zip_land_zeros_r.
    + cbn [app zip_with]. unfold dot, sum in *. cbn [zip_with fold_right].
      now rewrite IH, land_bits.
Qed.

Lemma xor_reduce_unpacked_and_any (u w : list Z) :
  Forall is_bit u -> Forall is_bit w ->
  np.xor_reduce
    (flat_map np.unpack8 (zip_with Z.land (np.packbits_1d u) (np.packbits_1d w)))
  = dot u w mod 2.
Proof.
  intros Hu Hw. rewrite xor_reduce_bits.
  - rewrite bits_zip_with_land, !bits_packbits_1d.
    rewrite !map_nonzero_bits by assumption.
    now rewrite sum_zip_land_padded.
  - apply Forall_flat_map, Forall_forall. intros z _. apply unpack8_bits.
Qed.

Lemma dot_truncated (u w : list Z) :
  dot u w
  = dot (firstn (Nat.min (length u) (length w)) u)
        (firstn (Nat.min (length u) (length w)) w).
Proof.
  unfold dot. f_equal. revert w.
  induction u as [| x u IH]; intros [| y w]; cbn [length Nat.min firstn zip_with];
    try reflexivity.
  now rewrite <- IH.
Qed.

(** X14: when the dimension check passes although the inner logical lengths
    differ (ceil(na/8) = ceil(nb/8)), the vector product returns, for every
    row, the sum modulo 2 of the products over the first min(na, nb)
    positions: the longer operand is cut to the shorter one. *)
Theorem matmul_vector_same_storage_length :
  forall (sup : pyvalue -> pytype -> result pyvalue)
         (m na nb : nat) (A v : list Z),
    length A = (m * na)%nat -> length v = nb ->
    Forall is_bit A -> Forall is_bit v ->
    np.cdiv8 na = np.cdiv8 nb ->
    let k := Nat.min na nb in
    let product :=
      map (fun i => dot (firstn k (matrix_row na A i)) (firstn k v) mod 2)
        (seq 0 m) in
    exists c,
      _matmul GF2BP_cls
        [FieldArray GF2BP_cls (packed_last [m] na A) (Some [m; na]);
         FieldArray GF2BP_cls (packed_last [] nb v) (Some [nb])]
      = Ok c /\
      GF2BP.astype sup c (cls GF2_cls)
      = Ok (FieldArray GF2_cls (mk_ndarray [m] product) None).
Proof.
  intros sup m na nb A v HA Hv HbA Hbv Hc k product.
  exists (FieldArray GF2BP_cls (packed_last [] m product) (Some [m])).
  assert (Hlenp : length product = m)
    by (subst product; now rewrite length_map, length_seq).
  assert (Hbp : Forall is_bit product).
  { subst product. apply Forall_map, Forall_forall. intros i _.
    apply mod2_is_bit. }
  split.
  2: { apply (GF2BP_astype_unpacks sup [] m product); [| assumption].
       cbn [size fold_right]. lia. }
  unfold _matmul, matmul_ufunc_bitpacked.__call__.
  cbn [isinstance field_eqb andb assert bind get_unpacked_shape view_ndarray
    getitem_last last].
  rewrite unpackbits_packed_last by (cbn [size fold_right]; (lia || assumption)).
  cbn [bind app].
  rewrite packbits_axis0_vector by assumption. cbn [bind].
  rewrite packed_last_vector by assumption.
  rewrite packed_last_matrix.
  cbn [shape getitem_last getitem_first last bind length].
  rewrite Hc, Nat.eqb_refl. cbn [assert bind Nat.eqb].
  unfold Base._view.
  assert (Hrow : forall r, (r < m)%nat ->
            length (np.packbits_1d (firstn na (skipn (r * na) A))) = np.cdiv8 nb).
  { intros r Hr. now rewrite length_packbits_1d, length_row, Hc by nia. }
  assert (Hand : forall r, (r < m)%nat ->
            length (zip_with Z.land (np.packbits_1d (firstn na (skipn (r * na) A)))
                      (np.packbits_1d v)) = np.cdiv8 nb).
  { intros r Hr.
    rewrite length_zip_with, Hrow, length_packbits_1d, Hv by assumption. lia. }
  rewrite and_of_rows; [| exact Hrow | now rewrite length_packbits_1d, Hv].
  cbn [bind view_ndarray].
  change [m; np.cdiv8 nb] with ([m] ++ [np.cdiv8 nb]).
  rewrite unpackbits_last_all
    by (rewrite length_rows with (n := np.cdiv8 nb); cbn [size fold_right];
        (lia || assumption)).
  cbn [bind]. rewrite xor_reduce_last.
  2: { cbn [size fold_right]. rewrite Nat.mul_1_r.
       apply length_rows. intros r Hr.
       rewrite row_of_rows, length_bits, Hand by assumption. reflexivity. }
  cbn [bind size fold_right]. rewrite Nat.mul_1_r.
  replace (map _ (seq 0 m)) with product.
  - change [m] with ([] ++ [m]) at 1.
    rewrite packbits_last; [reflexivity |]. cbn [size fold_right]. lia.
  - subst product. apply map_ext_in. intros r Hr. apply in_seq in Hr.
    rewrite row_of_rows with (m := m);
      [| intros r' Hr'; rewrite row_of_rows, length_bits, Hand by assumption;
         reflexivity | lia].
    rewrite row_of_rows by (assumption || lia).
    rewrite xor_reduce_unpacked_and_any by (assumption || now apply Forall_row).
    rewrite matrix_row_run by nia.
    rewrite (dot_truncated (firstn na (skipn (r * na) A)) v).
    rewrite length_row, Hv by nia. reflexivity.
Qed.

Lemma matmul_vector_same_storage_length_witness :
  exists c,
    _matmul GF2BP_cls
      [FieldArray GF2BP_cls (packed_last [2%nat] 3 [1; 0; 1; 0; 1; 1])
         (Some [2; 3]%nat);
       FieldArray GF2BP_cls (packed_last [] 4 [1; 1; 0; 1]) (Some [4%nat])]
    = Ok c /\
    GF2BP.astype ndarray_astype c (cls GF2_cls)
    = Ok (FieldArray GF2_cls (mk_ndarray [2%nat] [1; 1]) None).
Proof.
  apply (matmul_vector_same_storage_length ndarray_astype 2 3 4
           [1; 0; 1; 0; 1; 1] [1; 1; 0; 1]);
    try reflexivity;
    unfold is_bit; repeat (constructor; [lia |]); constructor.
Defined.

(** ** The two reduction paths and linearity *)

Lemma matrix_col_single (n : nat) (v : list Z) :
  length v = n -> matrix_col n 1 v 0 = v.
Proof.
  intros Hv. unfold matrix_col, entry.
  etransitivity; [| apply (map_nth_seq v 0)]. rewrite Hv.
  apply map_ext. intros k. f_equal. lia.
Qed.

(** X15: the vector path and the matrix path agree: multiplying a packed
    matrix by a packed vector of length n and by the same elements packed as
    an n x 1 matrix gives the same numbers, as shape [m] and as shape [m,1]. *)
Theorem matmul_paths_agree :
  forall (sup : pyvalue -> pytype -> result pyvalue)
         (m n : nat) (A v : list Z),
    length A = (m * n)%nat -> length v = n ->
    Forall is_bit A -> Forall is_bit v ->
    let a := FieldArray GF2BP_cls (packed_last [m] n A) (Some [m; n]) in
    exists cv cm d,
      _matmul GF2BP_cls [a; FieldArray GF2BP_cls (packed_last [] n v) (Some [n])]
      = Ok cv /\
      _matmul GF2BP_cls
        [a; FieldArray GF2BP_cls (packed_last [n] 1 v) (Some [n; 1%nat])]
      = Ok cm /\
      GF2BP.astype sup cv (cls GF2_cls)
      = Ok (FieldArray GF2_cls (mk_ndarray [m] d) None) /\
      GF2BP.astype sup cm (cls GF2_cls)
      = Ok (FieldArray GF2_cls (mk_ndarray [m; 1%nat] d) None).
Proof.
  intros sup m n A v HA Hv HbA Hbv a. subst a.
  assert (Hv1 : length v = (n * 1)%nat) by lia.
  assert (Hd : data (matmul_mod2 m n 1 A v) = data (matvec_mod2 m n A v)).
  { cbn [matmul_mod2 matvec_mod2 data]. rewrite grid_one.
    apply map_ext. intros i. now rewrite matrix_col_single. }
  exists (FieldArray GF2BP_cls
            (packed_last [] m (data (matvec_mod2 m n A v))) (Some [m])),
         (FieldArray GF2BP_cls
            (packed_last [m] 1 (data (matmul_mod2 m n 1 A v))) (Some [m; 1%nat])),
         (data (matvec_mod2 m n A v)).
  split; [now apply matmul_vector |].
  split; [now apply matmul_matrix |].
  split.
  - apply (GF2BP_astype_unpacks sup [] m (data (matvec_mod2 m n A v))).
    + cbn [matvec_mod2 data size fold_right]. rewrite length_map, length_seq. lia.
    + apply matvec_mod2_bits.
  - rewrite <- Hd.
    apply (GF2BP_astype_unpacks sup [m] 1 (data (matmul_mod2 m n 1 A v))).
    + cbn [matmul_mod2 data size fold_right]. rewrite grid_length. lia.
    + apply matmul_mod2_bits.
Qed.

Lemma matmul_paths_agree_witness :
  exists cv cm d,
    _matmul GF2BP_cls
      [FieldArray GF2BP_cls (packed_last [2%nat] 3 [1; 0; 1; 0; 1; 1])
         (Some [2; 3]%nat);
       FieldArray GF2BP_cls (packed_last [] 3 [1; 1; 0]) (Some [3%nat])]
    = Ok cv /\
    _matmul GF2BP_cls
      [FieldArray GF2BP_cls (packed_last [2%nat] 3 [1; 0; 1; 0; 1; 1])
         (Some [2; 3]%nat);
       FieldArray GF2BP_cls (packed_last [3%nat] 1 [1; 1; 0]) (Some [3; 1]%nat)]
    = Ok cm /\
    GF2BP.astype ndarray_astype cv (cls GF2_cls)
    = Ok (FieldArray GF2_cls (mk_ndarray [2%nat] d) None) /\
    GF2BP.astype ndarray_astype cm (cls GF2_cls)
    = Ok (FieldArray GF2_cls (mk_ndarray [2; 1]%nat d) None).
Proof.
  apply (matmul_paths_agree ndarray_astype 2 3 [1; 0; 1; 0; 1; 1] [1; 1; 0]);
    try reflexivity;
    unfold is_bit; repeat (constructor; [lia |]); constructor.
Defined.

Lemma dot_lxor_mod2 (r u v : list Z) :
  length u = length v -> Forall is_bit u -> Forall is_bit v ->
  dot r (zip_with Z.lxor u v) mod 2 = (dot r u + dot r v) mod 2.
Proof.
  intros Hlen Hu. revert r v Hlen.
  induction Hu as [| x u Hx _ IH]; intros r v Hlen Hv.
  - destruct v; [| discriminate Hlen]. now destruct r.
  - destruct Hv as [| y v Hy Hv]; [discriminate Hlen |].
    injection Hlen as Hlen. destruct r as [| a r]; [reflexivity |].
    unfold dot in *. cbn [zip_with fold_right].
    specialize (IH r v Hlen Hv).
    set (S3 := fold_right Z.add 0 (zip_with Z.mul r (zip_with Z.lxor u v))) in *.
    set (S1 := fold_right Z.add 0 (zip_with Z.mul r u)) in *.
    set (S2 := fold_right Z.add 0 (zip_with Z.mul r v)) in *.
    rewrite (Zplus_mod _ S3), IH, <- Zplus_mod.
    destruct Hx as [-> | ->], Hy as [-> | ->]; cbn [Z.lxor Pos.lxor].
    + f_equal. lia.
    + f_equal. lia.
    + f_equal. lia.
    + replace (a * 1 + S1 + (a * 1 + S2)) with (a * 0 + (S1 + S2) + a * 2) by lia.
      now rewrite Z.mod_add by lia.
Qed.

(** X16: the packed product is linear in its second operand: for 0/1
    vectors u and v of length n, multiplying a packed matrix by the packed
    sum of u and v gives the same packed array as adding the two packed
    products. *)
Theorem matmul_is_linear :
  forall (parent_divide : ndarray -> ndarray -> result ndarray)
         (m n : nat) (A u v : list Z),
    length A = (m * n)%nat -> length u = n -> length v = n ->
    Forall is_bit A -> Forall is_bit u -> Forall is_bit v ->
    let T := UFuncMixin_2_1_BitPacked GF2BP_cls parent_divide in
    let a := FieldArray GF2BP_cls (packed_last [m] n A) (Some [m; n]) in
    let bu := FieldArray GF2BP_cls (packed_last [] n u) (Some [n]) in
    let bv := FieldArray GF2BP_cls (packed_last [] n v) (Some [n]) in
    (s <- _add T [bu; bv] ;; _matmul GF2BP_cls [a; s])
    = (cu <- _matmul GF2BP_cls [a; bu] ;; cv <- _matmul GF2BP_cls [a; bv] ;;
       _add T [cu; cv]) /\
    exists c, (s <- _add T [bu; bv] ;; _matmul GF2BP_cls [a; s]) = Ok c.
Proof.
  intros parent_divide m n A u v HA Hu Hv HbA Hbu Hbv T a bu bv.
  subst T a bu bv.
  assert (Hsum : length (zip_with Z.lxor u v) = n) by now apply length_zip_same.
  assert (Hbsum : Forall is_bit (zip_with Z.lxor u v))
    by (apply zip_with_bits; auto using lxor_is_bit).
  rewrite !matmul_vector by assumption. cbn [bind].
  unfold_packed_table.
  rewrite !(packed_last_zip_with Z.lxor lxor_is_bit eq_refl unpack8_lxor lxor_byte);
    try assumption; try apply matvec_mod2_bits;
    try (cbn [size fold_right]; lia);
    try (cbn [matvec_mod2 data size fold_right]; rewrite length_map, length_seq; lia).
  cbn [bind set_unpacked_shape].
  rewrite matmul_vector by assumption.
  replace (zip_with Z.lxor (data (matvec_mod2 m n A u)) (data (matvec_mod2 m n A v)))
    with (data (matvec_mod2 m n A (zip_with Z.lxor u v))).
  - split; [reflexivity | eauto].
  - cbn [matvec_mod2 data]. rewrite zip_with_map. apply map_ext. intros i.
    rewrite dot_lxor_mod2 by congruence.
    rewrite lxor_bits by apply mod2_is_bit.
    now rewrite <- Zplus_mod.
Qed.

Lemma matmul_is_linear_witness :
  exists c,
    (s <- _add (UFuncMixin_2_1_BitPacked GF2BP_cls vectorised_divide)
            [FieldArray GF2BP_cls (packed_last [] 3 [1; 1; 0]) (Some [3%nat]);
             FieldArray GF2BP_cls (packed_last [] 3 [0; 1; 1]) (Some [3%nat])] ;;
     _matmul GF2BP_cls
       [FieldArray GF2BP_cls (packed_last [2%nat] 3 [1; 0; 1; 0; 1; 1])
          (Some [2; 3]%nat); s])
    = Ok c.
Proof.
  apply (matmul_is_linear vectorised_divide 2 3
           [1; 0; 1; 0; 1; 1] [1; 1; 0] [0; 1; 1]);
    try reflexivity;
    unfold is_bit; repeat (constructor; [lia |]); constructor.
Defined.

(** ** Unpacking reads the storage and the last logical length only *)

(** X17: unpacking uses the last entry of the logical shape and nothing else
    of it: for storage of shape s ++ [k] and any non-empty logical shape,
    astype to the unpacked type returns a well-formed array of 0/1 elements
    whose shape is s ++ [c], c being the last entry of the logical shape;
    the leading axes come from the storage, whatever the descriptor says. *)
Theorem unpack_shape_from_storage :
  forall (sup : pyvalue -> pytype -> result pyvalue)
         (pre : list nat) (k : nat) (bytes : list Z) (s : list nat),
    length bytes = (size pre * k)%nat -> s <> [] ->
    exists r,
      GF2BP.astype sup
        (FieldArray GF2BP_cls (mk_ndarray (pre ++ [k]) bytes) (Some s))
        (cls GF2_cls)
      = Ok (FieldArray GF2_cls r None) /\
      shape r = pre ++ [last s 0%nat] /\
      well_formed r /\ binary r.
Proof.
  intros sup pre k bytes s Hlen Hs.
  set (c := last s 0%nat).
  set (d := flat_map (fun o => np.unpackbits_1d c (firstn k (skipn (o * k) bytes)))
              (seq 0 (size pre))).
  assert (Hbin : binary (mk_ndarray (pre ++ [c]) d)).
  { unfold binary, d. cbn [data]. apply Forall_flat_map, Forall_forall.
    intros o _. apply unpackbits_1d_bits. }
  exists (mk_ndarray (pre ++ [c]) d).
  split; [| split; [reflexivity | split; [| exact Hbin]]].
  - unfold GF2BP.astype.
    cbn [is_cls field_eqb view_ndarray get_unpacked_shape bind].
    replace (getitem_last s) with (@Ok nat c)
      by (destruct s; [contradiction | reflexivity]).
    cbn [bind]. rewrite unpackbits_last by assumption. cbn [bind].
    unfold Base.__new__. cbn [array_of bind]. fold d.
    now rewrite verify_binary.
  - unfold well_formed, d. cbn [shape data]. rewrite size_last.
    apply length_rows. intros. apply length_unpackbits_1d.
Qed.

Lemma unpack_shape_from_storage_witness :
  exists r,
    GF2BP.astype ndarray_astype
      (FieldArray GF2BP_cls (mk_ndarray [2; 1]%nat [64; 128]) (Some [3%nat]))
      (cls GF2_cls)
    = Ok (FieldArray GF2_cls r None) /\
    shape r = [2; 3]%nat /\ well_formed r /\ binary r.
Proof.
  apply (unpack_shape_from_storage ndarray_astype [2%nat] 1 [64; 128] [3%nat]);
    [reflexivity | discriminate].
Defined.

(** ** Division of unpacked arrays *)

Lemma mapM_divide_nonzero (xs ys : list Z) :
  Forall (fun z => z <> 0) ys ->
  mapM (fun p => divide.calculate (fst p) (snd p)) (combine xs ys)
  = Ok (zip_with Z.land xs ys).
Proof.
  intros Hy. revert xs. induction Hy as [| y ys Hy _ IH]; intros [| x xs];
    cbn [combine mapM zip_with]; try reflexivity.
  unfold divide.calculate at 1. cbn [fst snd].
  destruct (Z.eqb_spec y 0); [contradiction |]. cbn [bind].
  now rewrite IH.
Qed.

Lemma mapM_divide_zero (xs ys : list Z) :
  length xs = length ys ->
  Exists (fun z => z = 0) ys ->
  mapM (fun p => divide.calculate (fst p) (snd p)) (combine xs ys)
  = Raise DivisionByZero.
Proof.
  intros Hlen Hy. revert xs Hlen.
  induction Hy as [y ys Hy | y ys _ IH]; intros [| x xs] Hlen;
    try discriminate Hlen; cbn [combine mapM]; unfold divide.calculate at 1;
    cbn [fst snd].
  - subst y. reflexivity.
  - destruct (y =? 0); [reflexivity |]. cbn [bind].
    injection Hlen as Hlen. now rewrite IH.
Qed.

(** X18: division of unpacked arrays of one shape fails as a whole with
    ZeroDivisionError as soon as one element of the divisor is zero, and
    returns the elementwise AND when none is. *)
Theorem unpacked_divide_by_zero_element :
  forall (c : field) (s : list nat) (dx dy : list Z)
         (ax ay : option (list nat)),
    length dx = size s -> length dy = size s ->
    let T := UFuncMixin_2_1 c in
    let x := FieldArray c (mk_ndarray s dx) ax in
    let y := FieldArray c (mk_ndarray s dy) ay in
    (Exists (fun z => z = 0) dy -> _divide T [x; y] = Raise DivisionByZero) /\
    (Forall (fun z => z <> 0) dy ->
     _divide T [x; y]
     = Ok (FieldArray c (mk_ndarray s (zip_with Z.land dx dy)) None)).
Proof.
  intros c s dx dy ax ay Hx Hy T x y. subst T x y.
  cbn [_divide UFuncMixin_2_1].
  unfold Base.calculate_ufunc, Base.binary_call, Base.binary_call_with,
    np.binary_ufunc_calculate.
  cbn [Base.view_input bind shape].
  rewrite broadcast_shapes_same, !broadcast_to_same by assumption.
  split.
  - intros Hz. rewrite mapM_divide_zero; [reflexivity | congruence | assumption].
  - intros Hnz. now rewrite mapM_divide_nonzero.
Qed.

Lemma unpacked_divide_by_zero_element_witness :
  _divide (UFuncMixin_2_1 GF2_cls)
    [FieldArray GF2_cls ex_x None; FieldArray GF2_cls ex_v4 None]
  = Raise DivisionByZero.
Proof.
  apply (unpacked_divide_by_zero_element GF2_cls [4%nat]
           [1; 0; 1; 1] [1; 1; 0; 1] None None eq_refl eq_refl).
  right. right. left. reflexivity.
Defined.
